(** * Flow Version Manager: the Lightning web component as a state reducer

    A shallow embedding of [flowVersionManager.js].  The component's fields
    become a record, every handler becomes a function on that record in a
    small state/trace/exception monad, and every [await] is resolved by an
    explicit settlement handed to the function.  The handler that can be
    interleaved with others ([toggleFlowExpansion]) is split at its [await]. *)

From Stdlib Require Import String Ascii List ZArith Bool Lia DecimalString.
Import ListNotations.
Open Scope string_scope.
Open Scope list_scope.

Infix "+++" := String.append (at level 60, right associativity).

(** ** JavaScript values *)

(** A property that may be missing ([undefined]), [null], or present. *)
Inductive Nullable (A : Type) : Type :=
| JsUndefined
| JsNull
| JsValue (a : A).
Arguments JsUndefined {A}.
Arguments JsNull {A}.
Arguments JsValue {A} a.

(** Truthiness of a nullable string: only a non-empty string is truthy. *)
Definition truthy (s : Nullable string) : bool :=
  match s with
  | JsValue v => negb (v =? "")
  | _ => false
  end.

(** [`${n}`] for an integral number. *)
Definition showNumber (n : Z) : string := NilZero.string_of_int (Z.to_int n).

(** [`${n}`] for a number that may be missing. *)
Definition showCount (n : Nullable Z) : string :=
  match n with
  | JsUndefined => "undefined"
  | JsNull => "null"
  | JsValue v => showNumber v
  end.

(** [n === 0] *)
Definition isZero (n : Nullable Z) : bool :=
  match n with
  | JsValue v => Z.eqb v 0
  | _ => false
  end.

(** [`${s}`] for a nullable string. *)
Definition showNullable (s : Nullable string) : string :=
  match s with
  | JsUndefined => "undefined"
  | JsNull => "null"
  | JsValue v => v
  end.

(** What a [catch] clause of this component can receive: a thrown string, or
    an object with the optional properties [body.message] and [message];
    [json] is its [JSON.stringify] rendering. *)
Inductive JsError : Type :=
| ErrString (s : string)
| ErrObject (bodyMessage : Nullable string) (message : Nullable string) (json : string).

(** The error raised by a property access on [undefined] or [null]. *)
Definition TypeError (msg : string) : JsError := ErrObject JsUndefined (JsValue msg) "{}".

(** The outcome of an awaited promise. *)
Inductive Settled (A : Type) : Type :=
| Fulfilled (a : A)
| Rejected (e : JsError).
Arguments Fulfilled {A} a.
Arguments Rejected {A} e.

(** ** Array helpers *)

(** [String.prototype.includes]. *)
Fixpoint startsWith (p s : string) : bool :=
  match p, s with
  | EmptyString, _ => true
  | String a p', String b s' => Ascii.eqb a b && startsWith p' s'
  | String _ _, EmptyString => false
  end.

Fixpoint includes (s term : string) : bool :=
  startsWith term s ||
  match s with
  | EmptyString => false
  | String _ s' => includes s' term
  end.

(** [Array.prototype.findIndex]; [None] stands for [-1]. *)
Fixpoint findIndex {A : Type} (p : A -> bool) (l : list A) : option nat :=
  match l with
  | [] => None
  | x :: l' => if p x then Some O else option_map S (findIndex p l')
  end.

(** [Array.prototype.map] with the callback's index argument. *)
Fixpoint mapFrom {A B : Type} (i : nat) (f : A -> nat -> B) (l : list A) : list B :=
  match l with
  | [] => []
  | x :: l' => f x i :: mapFrom (S i) f l'
  end.

Definition mapi {A B : Type} (f : A -> nat -> B) (l : list A) : list B := mapFrom O f l.

(** ** The selection set: a JavaScript [Set] of strings, in insertion order *)

Module JsSet.
Definition t := list string.

Definition empty : t := [].

Definition has (x : string) (s : t) : bool := existsb (String.eqb x) s.

Definition add (x : string) (s : t) : t := if has x s then s else s ++ [x].

Definition delete (x : string) (s : t) : t := filter (fun y => negb (y =? x)) s.

Definition size (s : t) : Z := Z.of_nat (length s).

(** [Array.from(s)] and [new Set(s)]: both keep the insertion order. *)
Definition toArray (s : t) : list string := s.
Definition copy (s : t) : t := s.
End JsSet.

(** ** Process type labels *)

Definition PROCESS_TYPE_LABELS : list (string * string) :=
  [ ("AutoLaunchedFlow", "Autolaunched");
    ("Flow", "Screen Flow");
    ("Workflow", "Workflow");
    ("CustomEvent", "Platform Event");
    ("InvocableProcess", "Invocable Process");
    ("LoginFlow", "Login Flow");
    ("ActionPlan", "Action Plan");
    ("JourneyBuilderIntegration", "Journey Builder");
    ("ContactRequestFlow", "Contact Request");
    ("Survey", "Survey");
    ("SurveyEnrich", "Survey Enrich");
    ("Appointments", "Appointments");
    ("FSCLending", "FSC Lending");
    ("DigitalForm", "Digital Form");
    ("FieldServiceMobile", "Field Service Mobile");
    ("OrchestrationFlow", "Orchestration");
    ("RoutingFlow", "Routing Flow");
    ("ServiceCatalogItemFlow", "Service Catalog");
    ("ManagedContentFlow", "Managed Content");
    ("CheckoutFlow", "Checkout Flow");
    ("CartAsyncFlow", "Cart Async");
    ("TransactionSecurityFlow", "Transaction Security");
    ("RecordTriggeredFlow", "Record-Triggered");
    ("ScreenFlow", "Screen Flow");
    ("ScheduleTriggeredFlow", "Schedule-Triggered") ].

Fixpoint lookupLabel (table : list (string * string)) (key : string) : option string :=
  match table with
  | [] => None
  | (k, v) :: table' => if k =? key then Some v else lookupLabel table' key
  end.

(** [PROCESS_TYPE_LABELS[processType] || processType]. *)
Definition processTypeLabelOf (processType : string) : string :=
  match lookupLabel PROCESS_TYPE_LABELS processType with
  | Some l => l
  | None => processType
  end.

(** ** Data received from the Apex controller *)

Module FlowSummary.
Record t := make {
    id : string;
    developerName : string;
    label : Nullable string;
    processType : string;
    activeVersionId : Nullable string;
    flowRecordId : Nullable string;
    isActive : bool;
    versionCount : Nullable Z
  }.
End FlowSummary.

Module VersionDetail.
Record t := make {
    id : string;
    versionNumber : Z;
    isActive : bool;
    apiVersion : string;
    lastModifiedDate : Nullable string;
    processType : string
  }.
End VersionDetail.

(** The response of [getFlowDefinitions]. *)
Module Page.
Record t := make {
    flows : list FlowSummary.t;
    hasMore : bool;
    totalLoaded : Z
  }.
End Page.

Record DeletionResult := {
  flowVersionId : string;
  success : bool;
  errorMessage : Nullable string
}.

Record DeleteResponse := {
  successCount : Nullable Z;
  failureCount : Nullable Z;
  results : Nullable (list DeletionResult)
}.

(** ** Rows held by the component *)

Module Version.
Record t := make {
    id : string;
    versionNumber : Z;
    isActive : bool;
    apiVersion : string;
    lastModifiedDate : Nullable string;
    processType : string;
    flowName : string;
    flowRecordId : Nullable string;
    isSelected : bool;
    processTypeLabel : string;
    statusClass : string;
    rowClass : string;
    lastModifiedDateFormatted : string
  }.

(** [{ ...version, isSelected }] *)
Definition set_isSelected (b : bool) (v : t) : t :=
    make (id v) (versionNumber v) (isActive v) (apiVersion v) (lastModifiedDate v)
         (processType v) (flowName v) (flowRecordId v) b (processTypeLabel v)
         (statusClass v) (rowClass v) (lastModifiedDateFormatted v).
End Version.

Module Flow.
Record t := make {
    id : string;
    developerName : string;
    label : Nullable string;
    processType : string;
    activeVersionId : Nullable string;
    flowRecordId : Nullable string;
    isActive : bool;
    versionCount : Nullable Z;
    isExpanded : bool;
    isLoadingVersions : bool;
    expandIcon : string;
    versionLabel : string;
    processTypeLabel : string;
    allInactiveSelected : bool;
    hasNoInactive : bool;
    versions : list Version.t;
    versionsLoaded : bool
  }.

(** [{ ...f, isExpanded, expandIcon, isLoadingVersions }] *)
Definition set_expansion (expanded : bool) (icon : string) (loading : bool) (f : t) : t :=
    make (id f) (developerName f) (label f) (processType f) (activeVersionId f)
         (flowRecordId f) (isActive f) (versionCount f) expanded loading icon
         (versionLabel f) (processTypeLabel f) (allInactiveSelected f) (hasNoInactive f)
         (versions f) (versionsLoaded f).

(** [{ ...f, isLoadingVersions }] *)
Definition set_isLoadingVersions (loading : bool) (f : t) : t :=
    make (id f) (developerName f) (label f) (processType f) (activeVersionId f)
         (flowRecordId f) (isActive f) (versionCount f) (isExpanded f) loading (expandIcon f)
         (versionLabel f) (processTypeLabel f) (allInactiveSelected f) (hasNoInactive f)
         (versions f) (versionsLoaded f).

(** [{ ...f, versions }] *)
Definition set_versions (vs : list Version.t) (f : t) : t :=
    make (id f) (developerName f) (label f) (processType f) (activeVersionId f)
         (flowRecordId f) (isActive f) (versionCount f) (isExpanded f) (isLoadingVersions f)
         (expandIcon f) (versionLabel f) (processTypeLabel f) (allInactiveSelected f)
         (hasNoInactive f) vs (versionsLoaded f).

(** [{ ...f, allInactiveSelected }] *)
Definition set_allInactiveSelected (b : bool) (f : t) : t :=
    make (id f) (developerName f) (label f) (processType f) (activeVersionId f)
         (flowRecordId f) (isActive f) (versionCount f) (isExpanded f) (isLoadingVersions f)
         (expandIcon f) (versionLabel f) (processTypeLabel f) b (hasNoInactive f)
         (versions f) (versionsLoaded f).

(** The object written back when a version fetch succeeds:
      [{ ...f, versions, versionsLoaded: true, isLoadingVersions: false,
         hasNoInactive, allInactiveSelected, versionCount, versionLabel }] *)
Definition set_loaded (vs : list Version.t) (noInactive allSelected : bool)
             (count : Z) (lbl : string) (f : t) : t :=
    make (id f) (developerName f) (label f) (processType f) (activeVersionId f)
         (flowRecordId f) (isActive f) (JsValue count) (isExpanded f) false (expandIcon f)
         lbl (processTypeLabel f) allSelected noInactive vs true.
End Flow.

(** ** Observable effects *)

Inductive Effect : Type :=
| ShowToast (title message variant : string) (sticky : bool)
| ConsoleError (line : string)
| CallHasAccess
| CallGetFlowDefinitions (offsetValue : Z)
| CallGetFlowVersions (flowDefinitionId : string) (activeVersionId : Nullable string)
| CallDeleteFlowVersions (flowVersionIds : list string) (session : string).

(** ** The component's fields *)

Record Component := mkComponent {
  sessionId : string;
  flows : list Flow.t;
  selectedVersionIds : JsSet.t;
  isLoading : bool;
  accessDenied : bool;
  searchTerm : string;
  filterType : string;
  filterStatus : string;
  hasMoreFlows : bool;
  currentOffset : Z;
  isLoadingMore : bool;
  showDeleteModal : bool;
  isDeleting : bool;
  deletionProgress : Z;
  deletedCount : Nullable Z;
  totalToDelete : Z
}.

(** The field initialisers of the class. *)
Definition initial (session : string) : Component :=
  mkComponent session [] JsSet.empty true false "" "" "" false 0%Z false false false 0%Z
    (JsValue 0%Z) 0%Z.

Definition with_flows (x : list Flow.t) (c : Component) : Component :=
  mkComponent (sessionId c) x (selectedVersionIds c) (isLoading c) (accessDenied c)
    (searchTerm c) (filterType c) (filterStatus c) (hasMoreFlows c) (currentOffset c)
    (isLoadingMore c) (showDeleteModal c) (isDeleting c) (deletionProgress c)
    (deletedCount c) (totalToDelete c).

Definition with_selectedVersionIds (x : JsSet.t) (c : Component) : Component :=
  mkComponent (sessionId c) (flows c) x (isLoading c) (accessDenied c)
    (searchTerm c) (filterType c) (filterStatus c) (hasMoreFlows c) (currentOffset c)
    (isLoadingMore c) (showDeleteModal c) (isDeleting c) (deletionProgress c)
    (deletedCount c) (totalToDelete c).

Definition with_isLoading (x : bool) (c : Component) : Component :=
  mkComponent (sessionId c) (flows c) (selectedVersionIds c) x (accessDenied c)
    (searchTerm c) (filterType c) (filterStatus c) (hasMoreFlows c) (currentOffset c)
    (isLoadingMore c) (showDeleteModal c) (isDeleting c) (deletionProgress c)
    (deletedCount c) (totalToDelete c).

Definition with_accessDenied (x : bool) (c : Component) : Component :=
  mkComponent (sessionId c) (flows c) (selectedVersionIds c) (isLoading c) x
    (searchTerm c) (filterType c) (filterStatus c) (hasMoreFlows c) (currentOffset c)
    (isLoadingMore c) (showDeleteModal c) (isDeleting c) (deletionProgress c)
    (deletedCount c) (totalToDelete c).

Definition with_searchTerm (x : string) (c : Component) : Component :=
  mkComponent (sessionId c) (flows c) (selectedVersionIds c) (isLoading c) (accessDenied c)
    x (filterType c) (filterStatus c) (hasMoreFlows c) (currentOffset c)
    (isLoadingMore c) (showDeleteModal c) (isDeleting c) (deletionProgress c)
    (deletedCount c) (totalToDelete c).

Definition with_filterType (x : string) (c : Component) : Component :=
  mkComponent (sessionId c) (flows c) (selectedVersionIds c) (isLoading c) (accessDenied c)
    (searchTerm c) x (filterStatus c) (hasMoreFlows c) (currentOffset c)
    (isLoadingMore c) (showDeleteModal c) (isDeleting c) (deletionProgress c)
    (deletedCount c) (totalToDelete c).

Definition with_filterStatus (x : string) (c : Component) : Component :=
  mkComponent (sessionId c) (flows c) (selectedVersionIds c) (isLoading c) (accessDenied c)
    (searchTerm c) (filterType c) x (hasMoreFlows c) (currentOffset c)
    (isLoadingMore c) (showDeleteModal c) (isDeleting c) (deletionProgress c)
    (deletedCount c) (totalToDelete c).

Definition with_hasMoreFlows (x : bool) (c : Component) : Component :=
  mkComponent (sessionId c) (flows c) (selectedVersionIds c) (isLoading c) (accessDenied c)
    (searchTerm c) (filterType c) (filterStatus c) x (currentOffset c)
    (isLoadingMore c) (showDeleteModal c) (isDeleting c) (deletionProgress c)
    (deletedCount c) (totalToDelete c).

Definition with_currentOffset (x : Z) (c : Component) : Component :=
  mkComponent (sessionId c) (flows c) (selectedVersionIds c) (isLoading c) (accessDenied c)
    (searchTerm c) (filterType c) (filterStatus c) (hasMoreFlows c) x
    (isLoadingMore c) (showDeleteModal c) (isDeleting c) (deletionProgress c)
    (deletedCount c) (totalToDelete c).

Definition with_isLoadingMore (x : bool) (c : Component) : Component :=
  mkComponent (sessionId c) (flows c) (selectedVersionIds c) (isLoading c) (accessDenied c)
    (searchTerm c) (filterType c) (filterStatus c) (hasMoreFlows c) (currentOffset c)
    x (showDeleteModal c) (isDeleting c) (deletionProgress c)
    (deletedCount c) (totalToDelete c).

Definition with_showDeleteModal (x : bool) (c : Component) : Component :=
  mkComponent (sessionId c) (flows c) (selectedVersionIds c) (isLoading c) (accessDenied c)
    (searchTerm c) (filterType c) (filterStatus c) (hasMoreFlows c) (currentOffset c)
    (isLoadingMore c) x (isDeleting c) (deletionProgress c)
    (deletedCount c) (totalToDelete c).

Definition with_isDeleting (x : bool) (c : Component) : Component :=
  mkComponent (sessionId c) (flows c) (selectedVersionIds c) (isLoading c) (accessDenied c)
    (searchTerm c) (filterType c) (filterStatus c) (hasMoreFlows c) (currentOffset c)
    (isLoadingMore c) (showDeleteModal c) x (deletionProgress c)
    (deletedCount c) (totalToDelete c).

Definition with_deletionProgress (x : Z) (c : Component) : Component :=
  mkComponent (sessionId c) (flows c) (selectedVersionIds c) (isLoading c) (accessDenied c)
    (searchTerm c) (filterType c) (filterStatus c) (hasMoreFlows c) (currentOffset c)
    (isLoadingMore c) (showDeleteModal c) (isDeleting c) x
    (deletedCount c) (totalToDelete c).

Definition with_deletedCount (x : Nullable Z) (c : Component) : Component :=
  mkComponent (sessionId c) (flows c) (selectedVersionIds c) (isLoading c) (accessDenied c)
    (searchTerm c) (filterType c) (filterStatus c) (hasMoreFlows c) (currentOffset c)
    (isLoadingMore c) (showDeleteModal c) (isDeleting c) (deletionProgress c)
    x (totalToDelete c).

Definition with_totalToDelete (x : Z) (c : Component) : Component :=
  mkComponent (sessionId c) (flows c) (selectedVersionIds c) (isLoading c) (accessDenied c)
    (searchTerm c) (filterType c) (filterStatus c) (hasMoreFlows c) (currentOffset c)
    (isLoadingMore c) (showDeleteModal c) (isDeleting c) (deletionProgress c)
    (deletedCount c) x.

(** ** Handlers as actions: state, effect trace and exceptions

    An action runs on the component and returns how it completed, the
    component it leaves behind and the effects it performed, in order.
    A thrown error keeps the assignments made before it, as in JavaScript. *)

Inductive Completion (A : Type) : Type :=
| Normal (a : A)
| Thrown (e : JsError).
Arguments Normal {A} a.
Arguments Thrown {A} e.

Definition Action (A : Type) : Type := Component -> Completion A * Component * list Effect.

Definition ret {A : Type} (a : A) : Action A := fun c => (Normal a, c, []).

Definition throw {A : Type} (e : JsError) : Action A := fun c => (Thrown e, c, []).

Definition bind {A B : Type} (m : Action A) (k : A -> Action B) : Action B :=
  fun c =>
    match m c with
    | (Normal a, c1, t1) =>
        match k a c1 with
        | (r, c2, t2) => (r, c2, t1 ++ t2)
        end
    | (Thrown e, c1, t1) => (Thrown e, c1, t1)
    end.

Notation "x <- m ;; k" := (bind m (fun x => k))
  (at level 61, m at next level, right associativity).
Notation "m ;; k" := (bind m (fun _ => k))
  (at level 61, right associativity).

(** Read a field, assign a field, perform an effect. *)
Definition read {A : Type} (field : Component -> A) : Action A := fun c => (Normal (field c), c, []).

Definition assign (update : Component -> Component) : Action unit :=
  fun c => (Normal tt, update c, []).

Definition perform (e : Effect) : Action unit := fun c => (Normal tt, c, [e]).

(** [try { body } catch (error) { handler(error) }] *)
Definition try_catch {A : Type} (body : Action A) (handler : JsError -> Action A) : Action A :=
  fun c =>
    match body c with
    | (Normal a, c1, t1) => (Normal a, c1, t1)
    | (Thrown e, c1, t1) =>
        match handler e c1 with
        | (r, c2, t2) => (r, c2, t1 ++ t2)
        end
    end.

(** [try { body } finally { final }]: the completion of [body] is kept
    unless [final] itself throws. *)
Definition try_finally {A : Type} (body : Action A) (final : Action unit) : Action A :=
  fun c =>
    match body c with
    | (r, c1, t1) =>
        match final c1 with
        | (Normal _, c2, t2) => (r, c2, t1 ++ t2)
        | (Thrown e, c2, t2) => (Thrown e, c2, t1 ++ t2)
        end
    end.

(** [await call(...)]: the call is recorded, then its settlement decides. *)
Definition await {A : Type} (call : Effect) (outcome : Settled A) : Action A :=
  perform call ;;
  match outcome with
  | Fulfilled a => ret a
  | Rejected e => throw e
  end.

(** A property access on a value that may be [undefined] or [null]. *)
Definition deref {A : Type} (v : Nullable A) : Action A :=
  match v with
  | JsValue a => ret a
  | JsUndefined => throw (TypeError "Cannot read properties of undefined")
  | JsNull => throw (TypeError "Cannot read properties of null")
  end.

(** [array.forEach(f)] and [array.map(f)] for callbacks with effects. *)
Fixpoint forEach {A : Type} (f : A -> Action unit) (l : list A) : Action unit :=
  match l with
  | [] => ret tt
  | x :: l' => f x ;; forEach f l'
  end.

Fixpoint mapM {A B : Type} (f : A -> Action B) (l : list A) : Action (list B) :=
  match l with
  | [] => ret []
  | x :: l' => y <- f x ;; ys <- mapM f l' ;; ret (y :: ys)
  end.

(** The parts of an action's result. *)
Definition completion {A : Type} (r : Completion A * Component * list Effect) : Completion A :=
  fst (fst r).
Definition after {A : Type} (r : Completion A * Component * list Effect) : Component :=
  snd (fst r).
Definition effects {A : Type} (r : Completion A * Component * list Effect) : list Effect :=
  snd r.

(** ** Toasts and error texts *)

Definition showSuccess (message : string) : Action unit :=
  perform (ShowToast "Success" message "success" false).

Definition showWarning (message : string) : Action unit :=
  perform (ShowToast "Warning" message "warning" false).

Definition showError (message : string) : Action unit :=
  perform (ShowToast "Error" message "error" true).

Definition reduceError (error : JsError) : string :=
  match error with
  | ErrString s => s
  | ErrObject bodyMessage message json =>
      if truthy bodyMessage then showNullable bodyMessage
      else if truthy message then showNullable message
      else json
  end.

(** Is this effect an error toast? *)
Definition isErrorToast (e : Effect) : bool :=
  match e with
  | ShowToast _ _ variant _ => variant =? "error"
  | _ => false
  end.

(** Is this effect a request for a page of flow definitions? *)
Definition isListRequest (e : Effect) : bool :=
  match e with
  | CallGetFlowDefinitions _ => true
  | _ => false
  end.

(** Is this effect a request for the versions of flow [flowId]? *)
Definition isVersionRequestFor (flowId : string) (e : Effect) : bool :=
  match e with
  | CallGetFlowVersions f _ => f =? flowId
  | _ => false
  end.

(** ** Rows built from controller data *)

(** [`${n} version${n !== 1 ? 's' : ''}`] *)
Definition versionsText (n : Z) : string :=
  showNumber n +++ " version" +++ (if Z.eqb n 1 then "" else "s").

Definition processFlowData (data : list FlowSummary.t) : list Flow.t :=
  map (fun flow =>
         Flow.make (FlowSummary.id flow) (FlowSummary.developerName flow)
           (FlowSummary.label flow) (FlowSummary.processType flow)
           (FlowSummary.activeVersionId flow) (FlowSummary.flowRecordId flow)
           (FlowSummary.isActive flow) (FlowSummary.versionCount flow)
           false
           false
           "utility:chevronright"
           match FlowSummary.versionCount flow with
           | JsValue n => versionsText n
           | _ => "Click to load"
           end
           (processTypeLabelOf (FlowSummary.processType flow))
           false
           true
           []
           false)
      data.

Definition checkAllInactiveSelected (selected : JsSet.t) (versions : list Version.t) : bool :=
  let inactiveVersions := filter (fun v => negb (Version.isActive v)) versions in
  (0 <? length inactiveVersions)%nat &&
  forallb (fun v => JsSet.has (Version.id v) selected) inactiveVersions.

(** The suspended part of a [toggleFlowExpansion] call that awaits
    [getFlowVersions]: the variables its continuation closes over. *)
Record VersionFetch := {
  fetch_flowId : string;
  fetch_flowIndex : nat;
  fetch_flow : Flow.t
}.

(** ** Instances of the host services, for evaluating the model

    [asciiLowerCase] is [toLowerCase] on ASCII letters and [dateStamp] keeps
    the first ten characters of an ISO timestamp. *)

Definition asciiLowerChar (a : ascii) : ascii :=
  let n := nat_of_ascii a in
  if ((65 <=? n) && (n <=? 90))%nat then ascii_of_nat (n + 32) else a.

Fixpoint asciiLowerCase (s : string) : string :=
  match s with
  | EmptyString => EmptyString
  | String a s' => String (asciiLowerChar a) (asciiLowerCase s')
  end.

Definition dateStamp (d : string) : string := substring 0 10 d.

Section Host.

(** Two services of the JavaScript host that are used as they are:
    [String.prototype.toLowerCase] and
    [new Date(d).toLocaleDateString('en-US', {year, month, day})]. *)
Variable toLowerCase : string -> string.
Variable toLocaleDateString : string -> string.

Definition formatDate (dateValue : Nullable string) : string :=
  if negb (truthy dateValue) then "" else toLocaleDateString (showNullable dateValue).

Definition processVersionData (selected : JsSet.t) (versions : list VersionDetail.t)
           (flowName : string) (flowRecordId : Nullable string) : list Version.t :=
  map (fun version =>
         Version.make (VersionDetail.id version) (VersionDetail.versionNumber version)
           (VersionDetail.isActive version) (VersionDetail.apiVersion version)
           (VersionDetail.lastModifiedDate version) (VersionDetail.processType version)
           flowName
           flowRecordId
           (JsSet.has (VersionDetail.id version) selected)
           (processTypeLabelOf (VersionDetail.processType version))
           (if VersionDetail.isActive version
            then "slds-m-left_xx-small slds-badge_success" else "slds-m-left_xx-small")
           (if VersionDetail.isActive version
            then "version-row version-active" else "version-row")
           (formatDate (VersionDetail.lastModifiedDate version)))
      versions.

(** ** Getters *)

Definition filteredFlows (c : Component) : list Flow.t :=
  let result := flows c in
  let result :=
    if negb (searchTerm c =? "") then
      let term := toLowerCase (searchTerm c) in
      filter (fun flow =>
                includes (toLowerCase (Flow.developerName flow)) term ||
                match Flow.label flow with
                | JsValue l => negb (l =? "") && includes (toLowerCase l) term
                | _ => false
                end) result
    else result in
  let result :=
    if negb (filterType c =? "") then
      filter (fun flow => Flow.processType flow =? filterType c) result
    else result in
  let result :=
    if negb (filterStatus c =? "") then
      let showActive := filterStatus c =? "Active" in
      filter (fun flow => Bool.eqb (Flow.isActive flow) showActive) result
    else result in
  result.

Definition totalFlows (c : Component) : Z := Z.of_nat (length (filteredFlows c)).

Definition selectedCount (c : Component) : Z := JsSet.size (selectedVersionIds c).

Definition deleteButtonLabel (c : Component) : string :=
  "Delete (" +++ showNumber (selectedCount c) +++ ")".

Definition deleteDisabled (c : Component) : bool := Z.eqb (selectedCount c) 0.

Definition noResults (c : Component) : bool :=
  negb (isLoading c) && (length (filteredFlows c) =? 0)%nat.

Definition loadMoreLabel (c : Component) : string :=
  "Load More (" +++ showNumber (Z.of_nat (length (flows c))) +++ " loaded)".

(** ** Filter inputs *)

Definition handleSearchChange (value : string) : Action unit := assign (with_searchTerm value).

Definition handleFilterTypeChange (value : string) : Action unit :=
  assign (with_filterType value).

Definition handleFilterStatusChange (value : string) : Action unit :=
  assign (with_filterStatus value).

(** ** Loading the list of flows *)

Definition loadFlows (append : bool) (page : Settled Page.t) : Action unit :=
  (if append then
     assign (with_isLoadingMore true)
   else
     assign (with_isLoading true) ;;
     assign (with_currentOffset 0%Z) ;;
     assign (with_flows [])) ;;
  try_finally
    (try_catch
       (offsetValue <- read currentOffset ;;
        response <- await (CallGetFlowDefinitions offsetValue) page ;;
        let newFlows := processFlowData (Page.flows response) in
        (if append then
           current <- read flows ;;
           assign (with_flows (current ++ newFlows))
         else
           assign (with_flows newFlows)) ;;
        assign (with_hasMoreFlows (Page.hasMore response)) ;;
        assign (with_currentOffset (Page.totalLoaded response)))
       (fun error => showError ("Error loading flows: " +++ reduceError error)))
    (assign (with_isLoading false) ;;
     assign (with_isLoadingMore false)).

Definition handleLoadMore (page : Settled Page.t) : Action unit := loadFlows true page.

(** ** Expanding a flow and loading its versions *)

(** [toggleFlowExpansion] up to its [await]: the result is the suspended
    fetch when one was started. *)
Definition toggleFlowExpansion_start (flowId : string) : Action (option VersionFetch) :=
  current <- read flows ;;
  match findIndex (fun f => Flow.id f =? flowId) current with
  | None => ret None
  | Some flowIndex =>
      match nth_error current flowIndex with
      | None => throw (TypeError "Cannot read properties of undefined")
      | Some flow =>
          let isExpanding := negb (Flow.isExpanded flow) in
          assign (with_flows
                    (mapi (fun f idx =>
                             if (idx =? flowIndex)%nat then
                               Flow.set_expansion isExpanding
                                 (if isExpanding then "utility:chevrondown"
                                  else "utility:chevronright")
                                 (isExpanding && negb (Flow.versionsLoaded f)) f
                             else f) current)) ;;
          if isExpanding && negb (Flow.versionsLoaded flow) then
            perform (CallGetFlowVersions flowId (Flow.activeVersionId flow)) ;;
            ret (Some {| fetch_flowId := flowId;
                         fetch_flowIndex := flowIndex;
                         fetch_flow := flow |})
          else ret None
      end
  end.

(** [toggleFlowExpansion] from the point where [getFlowVersions] settles. *)
Definition toggleFlowExpansion_resume (fetch : VersionFetch)
           (outcome : Settled (list VersionDetail.t)) : Action unit :=
  let flow := fetch_flow fetch in
  let flowIndex := fetch_flowIndex fetch in
  try_catch
    (versions <- match outcome with
                 | Fulfilled a => ret a
                 | Rejected e => throw e
                 end ;;
     selected <- read selectedVersionIds ;;
     let processedVersions :=
       processVersionData selected versions (Flow.developerName flow) (Flow.flowRecordId flow) in
     let hasInactive := existsb (fun v => negb (Version.isActive v)) processedVersions in
     current <- read flows ;;
     assign (with_flows
               (mapi (fun f idx =>
                        if (idx =? flowIndex)%nat then
                          let versionCount := Z.of_nat (length processedVersions) in
                          Flow.set_loaded processedVersions (negb hasInactive)
                            (checkAllInactiveSelected selected processedVersions)
                            versionCount (versionsText versionCount) f
                        else f) current)))
    (fun error =>
       showError ("Error loading versions: " +++ reduceError error) ;;
       current <- read flows ;;
       assign (with_flows
                 (mapi (fun f idx =>
                          if (idx =? flowIndex)%nat then Flow.set_isLoadingVersions false f
                          else f) current))).

(** The whole call when nothing else runs during the [await]. *)
Definition toggleFlowExpansion (flowId : string)
           (outcome : Settled (list VersionDetail.t)) : Action unit :=
  started <- toggleFlowExpansion_start flowId ;;
  match started with
  | Some fetch => toggleFlowExpansion_resume fetch outcome
  | None => ret tt
  end.

(** ** Selection *)

Definition updateVersionSelection (versionId : string) (isSelected : bool) : Action unit :=
  current <- read flows ;;
  assign (with_flows
            (map (fun flow =>
                    Flow.set_versions
                      (map (fun version =>
                              if Version.id version =? versionId
                              then Version.set_isSelected isSelected version
                              else version)
                           (Flow.versions flow))
                      flow)
                 current)).

Definition updateFlowSelectionState : Action unit :=
  current <- read flows ;;
  selected <- read selectedVersionIds ;;
  assign (with_flows
            (map (fun flow =>
                    if negb (Flow.versionsLoaded flow) then flow
                    else
                      let inactiveVersions :=
                        filter (fun v => negb (Version.isActive v)) (Flow.versions flow) in
                      let allInactiveSelected :=
                        (0 <? length inactiveVersions)%nat &&
                        forallb (fun v => JsSet.has (Version.id v) selected) inactiveVersions in
                      Flow.set_allInactiveSelected allInactiveSelected flow)
                 current)).

(** [this.selectedVersionIds = new Set(this.selectedVersionIds)] *)
Definition forceReactivity : Action unit :=
  selected <- read selectedVersionIds ;;
  assign (with_selectedVersionIds (JsSet.copy selected)).

Definition handleVersionSelect (versionId : string) (isChecked : bool) : Action unit :=
  selected <- read selectedVersionIds ;;
  (if isChecked then
     assign (with_selectedVersionIds (JsSet.add versionId selected))
   else
     assign (with_selectedVersionIds (JsSet.delete versionId selected))) ;;
  forceReactivity ;;
  updateVersionSelection versionId isChecked ;;
  updateFlowSelectionState.

(** The callback given to [flow.versions.map] in [handleSelectFlowInactive];
    it changes the selection set while the array is being mapped. *)
Definition selectIfInactive (isChecked : bool) (version : Version.t) : Action Version.t :=
  if negb (Version.isActive version) then
    selected <- read selectedVersionIds ;;
    (if isChecked then
       assign (with_selectedVersionIds (JsSet.add (Version.id version) selected))
     else
       assign (with_selectedVersionIds (JsSet.delete (Version.id version) selected))) ;;
    ret (Version.set_isSelected isChecked version)
  else ret version.

Definition handleSelectFlowInactive (flowId : string) (isChecked : bool) : Action unit :=
  current <- read flows ;;
  updated <- mapM (fun flow =>
                     if (Flow.id flow =? flowId) && Flow.versionsLoaded flow then
                       updatedVersions <- mapM (selectIfInactive isChecked) (Flow.versions flow) ;;
                       ret (Flow.set_allInactiveSelected isChecked
                              (Flow.set_versions updatedVersions flow))
                     else ret flow)
                  current ;;
  assign (with_flows updated) ;;
  forceReactivity.

(** ** Deleting the selection *)

Definition handleDeleteClick : Action unit :=
  n <- read selectedCount ;;
  if (0 <? n)%Z then assign (with_showDeleteModal true) else ret tt.

Definition handleCancelDelete : Action unit := assign (with_showDeleteModal false).

Definition handleConfirmDelete (deletion : Settled (Nullable DeleteResponse))
           (reload : Settled Page.t) : Action unit :=
  assign (with_isDeleting true) ;;
  assign (with_deletedCount (JsValue 0%Z)) ;;
  n <- read selectedCount ;;
  assign (with_totalToDelete n) ;;
  assign (with_deletionProgress 0%Z) ;;
  selected <- read selectedVersionIds ;;
  let idsToDelete := JsSet.toArray selected in
  try_finally
    (try_catch
       (session <- read sessionId ;;
        response <- await (CallDeleteFlowVersions idsToDelete session) deletion ;;
        result <- deref response ;;
        assign (with_deletedCount (successCount result)) ;;
        assign (with_deletionProgress 100%Z) ;;
        (if isZero (failureCount result) then
           showSuccess ("Successfully deleted " +++ showCount (successCount result)
                        +++ " flow version(s).")
         else
           showWarning ("Deleted " +++ showCount (successCount result)
                        +++ " version(s). Failed to delete "
                        +++ showCount (failureCount result) +++ " version(s).") ;;
           entries <- deref (results result) ;;
           forEach (fun r =>
                      perform (ConsoleError ("Failed to delete " +++ flowVersionId r
                                             +++ ": " +++ showNullable (errorMessage r))))
                   (filter (fun r => negb (success r)) entries)) ;;
        assign (with_selectedVersionIds JsSet.empty) ;;
        loadFlows false reload)
       (fun error => showError ("Error deleting flow versions: " +++ reduceError error)))
    (assign (with_isDeleting false) ;;
     assign (with_showDeleteModal false)).

(** ** Checking access on start *)

Definition checkAccessAndLoadData (access : Settled bool) (page : Settled Page.t) : Action unit :=
  try_catch
    (userHasAccess <- await CallHasAccess access ;;
     if negb userHasAccess then
       assign (with_accessDenied true) ;;
       assign (with_isLoading false)
     else loadFlows false page)
    (fun error =>
       showError ("Error checking access: " +++ reduceError error) ;;
       assign (with_accessDenied true) ;;
       assign (with_isLoading false)).

(** ** The component among interleaved events

    Between the start of a version fetch and its settlement the user can
    trigger other handlers.  A world holds the component, the version
    fetches still in flight (oldest first) and the effects so far. *)

Record World := {
  component : Component;
  inflight : list VersionFetch;
  trace : list Effect
}.

Inductive Event : Type :=
| FlowToggle (flowId : string)
| VersionsSettled (k : nat) (outcome : Settled (list VersionDetail.t))
| VersionSelect (versionId : string) (isChecked : bool)
| SelectFlowInactive (flowId : string) (isChecked : bool).

(** Remove the [k]-th element of a list. *)
Fixpoint removeNth {A : Type} (k : nat) (l : list A) : list A :=
  match l, k with
  | [], _ => []
  | _ :: l', O => l'
  | x :: l', S k' => x :: removeNth k' l'
  end.

Definition step (w : World) (ev : Event) : World :=
  match ev with
  | FlowToggle flowId =>
      match toggleFlowExpansion_start flowId (component w) with
      | (Normal (Some fetch), c, t) =>
          {| component := c; inflight := inflight w ++ [fetch]; trace := trace w ++ t |}
      | (_, c, t) =>
          {| component := c; inflight := inflight w; trace := trace w ++ t |}
      end
  | VersionsSettled k outcome =>
      match nth_error (inflight w) k with
      | Some fetch =>
          let r := toggleFlowExpansion_resume fetch outcome (component w) in
          {| component := after r;
             inflight := removeNth k (inflight w);
             trace := trace w ++ effects r |}
      | None => w
      end
  | VersionSelect versionId isChecked =>
      let r := handleVersionSelect versionId isChecked (component w) in
      {| component := after r; inflight := inflight w; trace := trace w ++ effects r |}
  | SelectFlowInactive flowId isChecked =>
      let r := handleSelectFlowInactive flowId isChecked (component w) in
      {| component := after r; inflight := inflight w; trace := trace w ++ effects r |}
  end.

Definition run (w : World) (events : list Event) : World := fold_left step events w.

(** The version fetches of flow [flowId] that are in flight. *)
Definition inflightFor (flowId : string) (w : World) : list VersionFetch :=
  filter (fun fetch => fetch_flowId fetch =? flowId) (inflight w).

(** The version requests issued so far for flow [flowId]. *)
Definition versionRequestsFor (flowId : string) (w : World) : nat :=
  length (filter (isVersionRequestFor flowId) (trace w)).

(** ** Predicates used in the statements *)

(** Order-preserving sub-list. *)
Inductive Subsequence {A : Type} : list A -> list A -> Prop :=
| Subsequence_nil : Subsequence [] []
| Subsequence_skip : forall x l1 l2, Subsequence l1 l2 -> Subsequence l1 (x :: l2)
| Subsequence_keep : forall x l1 l2, Subsequence l1 l2 -> Subsequence (x :: l1) (x :: l2).

(** Every version row the component holds. *)
Definition versionRows (c : Component) : list Version.t := flat_map Flow.versions (flows c).

(** Some version row with this id has [isActive = true]. *)
Definition knownActive (c : Component) (versionId : string) : bool :=
  existsb (fun v => (Version.id v =? versionId) && Version.isActive v) (versionRows c).

(** No selected id is the id of a version row with [isActive = true]. *)
Definition selectionInactiveOnly (c : Component) : bool :=
  forallb (fun x => negb (knownActive c x)) (selectedVersionIds c).

(** The flows that [handleSelectFlowInactive flowId] acts on. *)
Definition isTarget (flowId : string) (flow : Flow.t) : bool :=
  (Flow.id flow =? flowId) && Flow.versionsLoaded flow.

(** [x] is the id of an inactive version of a loaded flow with id [flowId]. *)
Definition inactiveVersionOf (c : Component) (flowId x : string) : Prop :=
  exists flow version,
    In flow (flows c) /\ Flow.id flow = flowId /\ Flow.versionsLoaded flow = true /\
    In version (Flow.versions flow) /\ Version.isActive version = false /\
    Version.id version = x.



(** Version ids identify versions: two rows with the same id belong to
    flows with the same id and carry the same active flag. *)
Definition versionIdsConsistent (c : Component) : bool :=
  forallb (fun f =>
    forallb (fun v =>
      forallb (fun g =>
        forallb (fun w =>
                   negb (Version.id v =? Version.id w) ||
                   ((Flow.id f =? Flow.id g) &&
                    Bool.eqb (Version.isActive v) (Version.isActive w)))
                (Flow.versions g))
        (flows c))
      (Flow.versions f))
    (flows c).

(** The versions-loaded flag of the flow that a toggle of [flowId] finds. *)
Definition versionsLoadedFor (flowId : string) (c : Component) : bool :=
  match findIndex (fun f => Flow.id f =? flowId) (flows c) with
  | Some i =>
      match nth_error (flows c) i with
      | Some flow => Flow.versionsLoaded flow
      | None => false
      end
  | None => false
  end.

(** A row keeps its id and does not lose its versions-loaded flag. *)
Definition keepsLoaded (f f' : Flow.t) : Prop :=
  Flow.id f' = Flow.id f /\
  (Flow.versionsLoaded f = true -> Flow.versionsLoaded f' = true).

(** The error toasts among some effects. *)
Definition errorToasts (t : list Effect) : list Effect := filter isErrorToast t.

(** The console lines among some effects. *)
Definition consoleLines (t : list Effect) : list string :=
  flat_map (fun e => match e with ConsoleError line => [line] | _ => [] end) t.

(** The ids of the inactive versions of a list, in order. *)
Definition inactiveIds (versions : list Version.t) : list string :=
  map Version.id (filter (fun v => negb (Version.isActive v)) versions).

(** The ids that [handleSelectFlowInactive flowId] adds or deletes, in the
    order of the calls. *)
Definition targetIds (flowId : string) (c : Component) : list string :=
  flat_map (fun flow => if isTarget flowId flow then inactiveIds (Flow.versions flow) else [])
           (flows c).

(** The rows that [handleSelectFlowInactive flowId isChecked] writes back. *)
Definition markInactive (isChecked : bool) (versions : list Version.t) : list Version.t :=
  map (fun version =>
         if negb (Version.isActive version) then Version.set_isSelected isChecked version
         else version)
      versions.

Definition markFlow (flowId : string) (isChecked : bool) (flow : Flow.t) : Flow.t :=
  if isTarget flowId flow then
    Flow.set_allInactiveSelected isChecked
      (Flow.set_versions (markInactive isChecked (Flow.versions flow)) flow)
  else flow.

(** Adding or deleting a list of ids, one after the other. *)
Definition applyAll (isChecked : bool) (ids : list string) (s : JsSet.t) : JsSet.t :=
  fold_left (fun acc x => if isChecked then JsSet.add x acc else JsSet.delete x acc) ids s.


(** The console line written for a failed entry of a delete response. *)
Definition failureLine (r : DeletionResult) : string :=
  "Failed to delete " +++ flowVersionId r +++ ": " +++ showNullable (errorMessage r).

(** The error that reaches the [catch] clause of [handleConfirmDelete], if
    any: the rejection of the call, the access to a field of a missing
    response, or the access to a missing [results] array once
    [failureCount] is not [0]. *)
Definition deleteFailure (deletion : Settled (Nullable DeleteResponse)) : option JsError :=
  match deletion with
  | Rejected e => Some e
  | Fulfilled JsUndefined => Some (TypeError "Cannot read properties of undefined")
  | Fulfilled JsNull => Some (TypeError "Cannot read properties of null")
  | Fulfilled (JsValue result) =>
      if isZero (failureCount result) then None
      else match results result with
           | JsUndefined => Some (TypeError "Cannot read properties of undefined")
           | JsNull => Some (TypeError "Cannot read properties of null")
           | JsValue _ => None
           end
  end.

(** The component when [handleConfirmDelete] has sent its request. *)
Definition submitted (c : Component) : Component :=
  with_deletionProgress 0%Z
    (with_totalToDelete (selectedCount c)
       (with_deletedCount (JsValue 0%Z) (with_isDeleting true c))).

(** The component when [handleConfirmDelete] has cleared the selection. *)
Definition cleared (result : DeleteResponse) (c : Component) : Component :=
  with_selectedVersionIds JsSet.empty
    (with_deletionProgress 100%Z
       (with_deletedCount (successCount result) (submitted c))).

(** ** Further getters *)

(** A getter that returns either a text or a number. *)
Inductive Shown : Type :=
| ShownText (text : string)
| ShownNumber (n : Z).

(** [flow.versionCount || 0] *)
Definition countOrZero (n : Nullable Z) : Z :=
  match n with
  | JsValue v => v
  | _ => 0%Z
  end.

Definition totalVersions (c : Component) : Shown :=
  let loadedFlows := filter (fun f => Flow.versionsLoaded f) (filteredFlows c) in
  if (length loadedFlows =? 0)%nat then ShownText "â€”"
  else
    let loadedCount :=
      fold_left (fun sum flow => (sum + countOrZero (Flow.versionCount flow))%Z)
                loadedFlows 0%Z in
    if (length loadedFlows <? length (filteredFlows c))%nat then
      ShownText (showNumber loadedCount +++ "+ (expand flows to see all)")
    else ShownNumber loadedCount.

Definition deletionProgressMessage (c : Component) : string :=
  "Deleting " +++ showCount (deletedCount c) +++ " of "
  +++ showNumber (totalToDelete c) +++ "...".

Definition progressBarStyle (c : Component) : string :=
  "width: " +++ showNumber (deletionProgress c) +++ "%".

(** An entry of a combobox. *)
Record ComboOption := {
  option_label : string;
  option_value : string
}.

Definition processTypeOptions (c : Component) : list ComboOption :=
  let types :=
    fold_left (fun acc flow =>
                 if negb (Flow.processType flow =? "")
                 then JsSet.add (Flow.processType flow) acc else acc)
              (flows c) JsSet.empty in
  {| option_label := "All Types"; option_value := "" |}
  :: map (fun type => {| option_label := processTypeLabelOf type; option_value := type |})
         types.

Definition statusOptions : list ComboOption :=
  [ {| option_label := "All Statuses"; option_value := "" |};
    {| option_label := "Active"; option_value := "Active" |};
    {| option_label := "Inactive"; option_value := "Inactive" |} ].

(** ** Further predicates *)

(** The test of the search filter on one flow, for a lower-cased term. *)
Definition matchesTerm (term : string) (flow : Flow.t) : bool :=
  includes (toLowerCase (Flow.developerName flow)) term ||
  match Flow.label flow with
  | JsValue l => negb (l =? "") && includes (toLowerCase l) term
  | _ => false
  end.

(** In every flow whose versions are loaded, the header checkbox
    [allInactiveSelected] is what [checkAllInactiveSelected] computes from
    the selection set. *)
Definition headerAgrees (selected : JsSet.t) (flow : Flow.t) : bool :=
  negb (Flow.versionsLoaded flow) ||
  Bool.eqb (Flow.allInactiveSelected flow)
           (checkAllInactiveSelected selected (Flow.versions flow)).

Definition headersShown (c : Component) : bool :=
  forallb (headerAgrees (selectedVersionIds c)) (flows c).

(** In every flow whose versions are loaded, [versionCount] is the number
    of version rows. *)
Definition countAgrees (flow : Flow.t) : bool :=
  negb (Flow.versionsLoaded flow) ||
  match Flow.versionCount flow with
  | JsValue n => Z.eqb n (Z.of_nat (length (Flow.versions flow)))
  | _ => false
  end.

Definition countsShown (c : Component) : bool := forallb countAgrees (flows c).

(** Some version of the list is inactive. *)
Definition hasInactive (versions : list Version.t) : bool :=
  existsb (fun v => negb (Version.isActive v)) versions.

(** Only toggles and fetch settlements. *)
Definition isExpansionEvent (ev : Event) : bool :=
  match ev with
  | FlowToggle _ | VersionsSettled _ _ => true
  | _ => false
  end.

(** The delete requests among some effects. *)
Definition deleteRequests (t : list Effect) : list (list string) :=
  flat_map (fun e => match e with CallDeleteFlowVersions ids _ => [ids] | _ => [] end) t.

(** The toasts of a given variant among some effects. *)
Definition toastsOf (variant : string) (t : list Effect) : list Effect :=
  filter (fun e => match e with ShowToast _ _ v _ => v =? variant | _ => false end) t.

(** ** Sample data *)

Definition sampleSummary (name : string) (active : bool) : FlowSummary.t :=
  FlowSummary.make ("301" +++ name) name (JsValue (name +++ " Label")) "AutoLaunchedFlow"
    (if active then JsValue ("300" +++ name) else JsNull) (JsValue ("2aF" +++ name))
    active JsNull.

Definition sampleDetail (versionId : string) (number : Z) (active : bool) : VersionDetail.t :=
  VersionDetail.make versionId number active "59.0" (JsValue "2024-03-01T10:00:00.000Z")
    "AutoLaunchedFlow".

(** One flow, as listed. *)
Definition sampleListed : Component :=
  with_isLoading false (with_flows (processFlowData [sampleSummary "Onboard" true]) (initial "SID")).

(** [n] summaries named after [prefix]. *)
Fixpoint samplePage (prefix : string) (n : nat) : list FlowSummary.t :=
  match n with
  | O => []
  | S n' => samplePage prefix n' ++ [sampleSummary (prefix +++ showNumber (Z.of_nat n')) false]
  end.

(** The versions of the sample flow: two inactive ones around the active one. *)
Definition sampleDetails : list VersionDetail.t :=
  [sampleDetail "v1" 1%Z false; sampleDetail "v2" 2%Z true; sampleDetail "v3" 3%Z false].

(** The sample flow expanded, with its versions loaded. *)
Definition sampleLoaded : Component :=
  after (toggleFlowExpansion "301Onboard" (Fulfilled sampleDetails) sampleListed).

(** The listed sample flow with nothing in flight. *)
Definition sampleWorld : World :=
  {| component := sampleListed; inflight := []; trace := [] |}.

(** A delete response with three deleted versions and one refusal. *)
Definition samplePartial : DeleteResponse :=
  {| successCount := JsValue 3%Z;
     failureCount := JsValue 1%Z;
     results :=
       JsValue
         [ {| flowVersionId := "v1"; success := true; errorMessage := JsNull |};
           {| flowVersionId := "v3"; success := true; errorMessage := JsNull |};
           {| flowVersionId := "v4"; success := false;
              errorMessage := JsValue "version is referenced by a paused interview" |};
           {| flowVersionId := "v5"; success := true; errorMessage := JsNull |} ] |}.

(** * Properties *)

(** ** The selection set *)

Lemma has_In (x : string) (s : JsSet.t) : JsSet.has x s = true <-> In x s.
Proof.
  unfold JsSet.has. rewrite existsb_exists. split.
  - intros [y [Hy Heq]]. apply String.eqb_eq in Heq. now subst.
  - intros H. exists x. split; [assumption | apply String.eqb_refl].
Qed.

Lemma has_app (x : string) (s1 s2 : JsSet.t) :
  JsSet.has x (s1 ++ s2) = JsSet.has x s1 || JsSet.has x s2.
Proof. unfold JsSet.has. apply existsb_app. Qed.

Lemma has_add (y x : string) (s : JsSet.t) :
  JsSet.has y (JsSet.add x s) = (y =? x) || JsSet.has y s.
Proof.
  unfold JsSet.add. destruct (JsSet.has x s) eqn:Hx.
  - destruct (String.eqb_spec y x) as [-> | _]; [now rewrite Hx | reflexivity].
  - rewrite has_app. cbn. rewrite orb_false_r. apply orb_comm.
Qed.

Lemma has_delete (y x : string) (s : JsSet.t) :
  JsSet.has y (JsSet.delete x s) = JsSet.has y s && negb (y =? x).
Proof.
  unfold JsSet.delete, JsSet.has. induction s as [| z s IH]; [reflexivity |].
  cbn. destruct (String.eqb_spec z x) as [-> | Hzx]; cbn.
  - rewrite IH. destruct (String.eqb_spec y x) as [-> | Hyx]; cbn.
    + now rewrite !andb_false_r.
    + now rewrite andb_true_r.
  - rewrite IH. destruct (String.eqb_spec y z) as [-> | Hyz]; cbn; [| reflexivity].
    destruct (String.eqb_spec z x); [contradiction | reflexivity].
Qed.

Lemma delete_fresh (x : string) (s : JsSet.t) :
  JsSet.has x s = false -> JsSet.delete x s = s.
Proof.
  unfold JsSet.delete, JsSet.has. induction s as [| z s IH]; [reflexivity |].
  cbn. intros H. apply orb_false_elim in H as [Hz Hs].
  rewrite String.eqb_sym, Hz. cbn. now rewrite IH.
Qed.

Lemma delete_add_fresh (x : string) (s : JsSet.t) :
  JsSet.has x s = false -> JsSet.delete x (JsSet.add x s) = s.
Proof.
  intros H. unfold JsSet.add. rewrite H. unfold JsSet.delete.
  rewrite filter_app. cbn. rewrite String.eqb_refl. cbn.
  rewrite app_nil_r. now apply delete_fresh.
Qed.

(** The selection set keeps its elements distinct. *)
Lemma add_NoDup (x : string) (s : JsSet.t) : NoDup s -> NoDup (JsSet.add x s).
Proof.
  intros H. unfold JsSet.add. destruct (JsSet.has x s) eqn:Hx; [assumption |].
  apply NoDup_app; [assumption | repeat constructor; intros [] | ].
  intros y Hy [<- | []]. apply has_In in Hy. congruence.
Qed.

Lemma delete_NoDup (x : string) (s : JsSet.t) : NoDup s -> NoDup (JsSet.delete x s).
Proof. apply NoDup_filter. Qed.

(** ** What the selection handlers leave behind *)

Lemma handleVersionSelect_selected (c : Component) (versionId : string) (isChecked : bool) :
  selectedVersionIds (after (handleVersionSelect versionId isChecked c)) =
  if isChecked then JsSet.add versionId (selectedVersionIds c)
  else JsSet.delete versionId (selectedVersionIds c).
Proof. destruct isChecked; reflexivity. Qed.

Lemma handleVersionSelect_flows (c : Component) (versionId : string) (isChecked : bool) :
  flows (after (handleVersionSelect versionId isChecked c)) =
  map (fun flow =>
         if negb (Flow.versionsLoaded flow) then flow
         else
           let inactiveVersions :=
             filter (fun v => negb (Version.isActive v)) (Flow.versions flow) in
           Flow.set_allInactiveSelected
             ((0 <? length inactiveVersions)%nat &&
              forallb (fun v => JsSet.has (Version.id v)
                                  (selectedVersionIds
                                     (after (handleVersionSelect versionId isChecked c))))
                      inactiveVersions) flow)
      (map (fun flow =>
              Flow.set_versions
                (map (fun version =>
                        if Version.id version =? versionId
                        then Version.set_isSelected isChecked version
                        else version)
                     (Flow.versions flow))
                flow)
           (flows c)).
Proof. destruct isChecked; reflexivity. Qed.

Lemma handleVersionSelect_effects (c : Component) (versionId : string) (isChecked : bool) :
  effects (handleVersionSelect versionId isChecked c) = [].
Proof. destruct isChecked; reflexivity. Qed.

(** The ids and active flags of the version rows, in order. *)
Lemma knownActive_ext (c c' : Component) (x : string) :
  map (fun v => (Version.id v, Version.isActive v)) (versionRows c') =
  map (fun v => (Version.id v, Version.isActive v)) (versionRows c) ->
  knownActive c' x = knownActive c x.
Proof.
  unfold knownActive. generalize (versionRows c) as l, (versionRows c') as l'.
  intros l l'. revert l. induction l' as [| v' l' IH]; intros [| v l] H; try discriminate.
  - reflexivity.
  - cbn in H. injection H as Hid Hact Hrest. cbn. now rewrite Hid, Hact, (IH l).
Qed.

Lemma handleVersionSelect_rows (c : Component) (versionId : string) (isChecked : bool) :
  map (fun v => (Version.id v, Version.isActive v))
      (versionRows (after (handleVersionSelect versionId isChecked c))) =
  map (fun v => (Version.id v, Version.isActive v)) (versionRows c).
Proof.
  unfold versionRows. rewrite handleVersionSelect_flows.
  generalize (selectedVersionIds (after (handleVersionSelect versionId isChecked c))) as s.
  intros s. induction (flows c) as [| flow l IH]; [reflexivity |].
  cbn [map flat_map]. rewrite !map_app. f_equal; [| exact IH].
  assert (Hrows : forall vs : list Version.t,
             map (fun v => (Version.id v, Version.isActive v))
                 (map (fun version =>
                         if Version.id version =? versionId
                         then Version.set_isSelected isChecked version else version) vs) =
             map (fun v => (Version.id v, Version.isActive v)) vs).
  { intros vs. rewrite map_map. apply map_ext. intros v.
    now destruct (Version.id v =? versionId). }
  cbn. destruct (Flow.versionsLoaded flow); cbn; apply Hrows.
Qed.

(** ** Running the asynchronous handlers *)

Ltac run_action :=
  cbv beta iota zeta delta
      [bind try_catch try_finally await deref read assign perform ret throw
       showWarning showSuccess showError].

Lemma forEach_log {A : Type} (g : A -> Effect) (f : A -> Action unit) (l : list A)
      (c : Component) :
  (forall a c', f a c' = (Normal tt, c', [g a])) ->
  forEach f l c = (Normal tt, c, map g l).
Proof.
  intros Hf. induction l as [| a l IH]; [reflexivity |].
  cbn [forEach map]. unfold bind. now rewrite Hf, IH.
Qed.

Lemma loadFlows_returns (append : bool) (page : Settled Page.t) (c : Component) :
  loadFlows append page c =
  (Normal tt, after (loadFlows append page c), effects (loadFlows append page c)).
Proof. destruct append, page; reflexivity. Qed.

(** The delete request failed as a whole: only the [catch] and [finally]
    clauses act on the component. *)
Lemma handleConfirmDelete_failed (c : Component)
      (deletion : Settled (Nullable DeleteResponse)) (reload : Settled Page.t) (e : JsError) :
  deleteFailure deletion = Some e ->
  handleConfirmDelete deletion reload c =
  (Normal tt,
   with_showDeleteModal false
     (with_isDeleting false
        match deletion with
        | Fulfilled (JsValue result) =>
            with_deletionProgress 100%Z
              (with_deletedCount (successCount result) (submitted c))
        | _ => submitted c
        end),
   CallDeleteFlowVersions (selectedVersionIds c) (sessionId c)
   :: match deletion with
      | Fulfilled (JsValue result) =>
          [ShowToast "Warning"
             ("Deleted " +++ showCount (successCount result)
              +++ " version(s). Failed to delete "
              +++ showCount (failureCount result) +++ " version(s).")
             "warning" false]
      | _ => []
      end
   ++ [ShowToast "Error" ("Error deleting flow versions: " +++ reduceError e) "error" true]).
Proof.
  intros H. destruct deletion as [[| | result] | e']; cbn in H.
  - injection H as <-. reflexivity.
  - injection H as <-. reflexivity.
  - unfold handleConfirmDelete. run_action.
    destruct (isZero (failureCount result)); [discriminate |].
    destruct (results result); [injection H as <- .. | discriminate]; reflexivity.
  - injection H as <-. reflexivity.
Qed.

(** The delete request was answered: the selection is cleared and the list
    is loaded again from the start. *)
Lemma handleConfirmDelete_answered (c : Component) (result : DeleteResponse)
      (reload : Settled Page.t) :
  deleteFailure (Fulfilled (JsValue result)) = None ->
  handleConfirmDelete (Fulfilled (JsValue result)) reload c =
  (Normal tt,
   with_showDeleteModal false
     (with_isDeleting false (after (loadFlows false reload (cleared result c)))),
   CallDeleteFlowVersions (selectedVersionIds c) (sessionId c)
   :: (if isZero (failureCount result) then
         [ShowToast "Success"
            ("Successfully deleted " +++ showCount (successCount result)
             +++ " flow version(s).")
            "success" false]
       else
         ShowToast "Warning"
           ("Deleted " +++ showCount (successCount result)
            +++ " version(s). Failed to delete "
            +++ showCount (failureCount result) +++ " version(s).")
           "warning" false
         :: match results result with
            | JsValue entries =>
                map (fun r => ConsoleError (failureLine r))
                    (filter (fun r => negb (success r)) entries)
            | _ => []
            end)
   ++ effects (loadFlows false reload (cleared result c))).
Proof.
  cbn. intros H. unfold handleConfirmDelete. run_action.
  destruct (isZero (failureCount result)).
  - destruct reload; reflexivity.
  - destruct (results result) as [| | entries]; try discriminate.
    rewrite (forEach_log (fun r => ConsoleError (failureLine r))) by reflexivity.
    destruct reload; cbn; rewrite ?app_nil_r; reflexivity.
Qed.

Lemma handleConfirmDelete_submits (c : Component)
      (deletion : Settled (Nullable DeleteResponse)) (reload : Settled Page.t) :
  exists rest,
    effects (handleConfirmDelete deletion reload c) =
    CallDeleteFlowVersions (selectedVersionIds c) (sessionId c) :: rest.
Proof.
  destruct (deleteFailure deletion) as [e |] eqn:H.
  - rewrite (handleConfirmDelete_failed _ _ _ _ H). eexists. reflexivity.
  - destruct deletion as [[| | result] | e]; try discriminate.
    rewrite (handleConfirmDelete_answered _ _ _ H). eexists. reflexivity.
Qed.

(** ** Single-version selection and delete submission *)

Lemma selectionInactiveOnly_spec (c : Component) :
  selectionInactiveOnly c = true <->
  forall x, JsSet.has x (selectedVersionIds c) = true -> knownActive c x = false.
Proof.
  unfold selectionInactiveOnly. rewrite forallb_forall. split.
  - intros H x Hx. apply has_In in Hx. apply H in Hx. now apply negb_true_iff in Hx.
  - intros H x Hx. apply negb_true_iff, H, has_In, Hx.
Qed.

(** C1 (as amended): [handleVersionSelect] with the box checked adds the
    version id it is given to the selection set, also when a loaded version
    with that id is flagged active (the set is then no longer free of active
    ids), and [handleConfirmDelete] submits the selection set as it is.  The
    set stays free of the ids of versions flagged active under a condition:
    if no selected id is such an id and the id being checked is none either,
    then no selected id is one after the toggle, and the ids submitted next
    are that set. *)
Theorem handleVersionSelect_keeps_inactive_only
        (c : Component) (versionId : string) (isChecked : bool) :
  let c' := after (handleVersionSelect versionId isChecked c) in
  let checked := after (handleVersionSelect versionId true c) in
  selectedVersionIds c' =
    (if isChecked then JsSet.add versionId (selectedVersionIds c)
     else JsSet.delete versionId (selectedVersionIds c)) /\
  JsSet.has versionId (selectedVersionIds checked) = true /\
  (knownActive c versionId = true -> selectionInactiveOnly checked = false) /\
  (forall deletion reload,
   exists rest,
     effects (handleConfirmDelete deletion reload c) =
     CallDeleteFlowVersions (selectedVersionIds c) (sessionId c) :: rest) /\
  (selectionInactiveOnly c = true ->
   isChecked && knownActive c versionId = false ->
   selectionInactiveOnly c' = true /\
   forall deletion reload,
   exists rest,
     effects (handleConfirmDelete deletion reload c') =
     CallDeleteFlowVersions (selectedVersionIds c') (sessionId c') :: rest).
Proof.
  intros c' checked.
  assert (Hadded : JsSet.has versionId (selectedVersionIds checked) = true).
  { unfold checked. rewrite handleVersionSelect_selected, has_add.
    now rewrite String.eqb_refl. }
  refine (conj (handleVersionSelect_selected c versionId isChecked)
            (conj Hadded (conj _ (conj _ _)))).
  - intros Hactive. apply not_true_iff_false. intros Honly.
    rewrite selectionInactiveOnly_spec in Honly. specialize (Honly versionId Hadded).
    rewrite (knownActive_ext c checked) in Honly by apply handleVersionSelect_rows.
    congruence.
  - intros deletion reload. apply handleConfirmDelete_submits.
  - intros Hsel Hid. split; [| intros deletion reload; apply handleConfirmDelete_submits].
    apply selectionInactiveOnly_spec. intros x Hx.
    rewrite (knownActive_ext c c') by apply handleVersionSelect_rows.
    unfold c' in Hx. rewrite handleVersionSelect_selected in Hx.
    rewrite selectionInactiveOnly_spec in Hsel.
    destruct isChecked; cbn in Hid.
    + rewrite has_add in Hx. apply orb_true_iff in Hx as [Hx | Hx].
      * apply String.eqb_eq in Hx. now subst.
      * now apply Hsel.
    + rewrite has_delete in Hx. apply andb_true_iff in Hx as [Hx _]. now apply Hsel.
Qed.

(** C8 (as amended): checking and then unchecking a version id that was not
    selected leaves the selection set as it was, order included. *)
Theorem handleVersionSelect_check_uncheck (c : Component) (versionId : string) :
  JsSet.has versionId (selectedVersionIds c) = false ->
  selectedVersionIds
    (after (handleVersionSelect versionId false
              (after (handleVersionSelect versionId true c)))) =
  selectedVersionIds c.
Proof.
  intros H. rewrite !handleVersionSelect_selected. now apply delete_add_fresh.
Qed.

(** ** Loading pages of flows *)

(** C2 (as amended): a failed load-more leaves the flow list, the offset and
    the has-more flag as they were; a failed first load or reload leaves the
    list empty, because it is emptied before the request is sent.  Either
    way the failure is caught, one sticky error toast with the reduced error
    text is shown, and both loading flags are reset. *)
Theorem loadFlows_failure (c : Component) (e : JsError) :
  let more := loadFlows true (Rejected e) c in
  let first := loadFlows false (Rejected e) c in
  (flows (after more) = flows c /\
   currentOffset (after more) = currentOffset c /\
   hasMoreFlows (after more) = hasMoreFlows c /\
   effects more =
     [CallGetFlowDefinitions (currentOffset c);
      ShowToast "Error" ("Error loading flows: " +++ reduceError e) "error" true]) /\
  (flows (after first) = [] /\
   effects first =
     [CallGetFlowDefinitions 0%Z;
      ShowToast "Error" ("Error loading flows: " +++ reduceError e) "error" true]) /\
  (forall append,
     let out := loadFlows append (Rejected e) c in
     completion out = Normal tt /\
     isLoading (after out) = false /\ isLoadingMore (after out) = false /\
     selectedVersionIds (after out) = selectedVersionIds c).
Proof.
  repeat split; try reflexivity; destruct append; reflexivity.
Qed.

(** C7: a first load replaces the flow list with the rows of the fetched
    page; a load-more appends the rows of its page after the rows already
    held; both take over [hasMore] and [totalLoaded].  With a first page of
    50 flows ([hasMore], [totalLoaded = 50]) and a second page of 20 flows
    (no more), the load-more asks for offset 50 and the list then holds the
    70 flows, page one before page two, with [hasMoreFlows = false]. *)
Theorem loadFlows_replace_then_append (c : Component) (page1 page2 : Page.t) :
  let c1 := after (loadFlows false (Fulfilled page1) c) in
  let out2 := loadFlows true (Fulfilled page2) c1 in
  (flows c1 = processFlowData (Page.flows page1) /\
   hasMoreFlows c1 = Page.hasMore page1 /\
   currentOffset c1 = Page.totalLoaded page1 /\
   effects (loadFlows false (Fulfilled page1) c) = [CallGetFlowDefinitions 0%Z]) /\
  (forall c0,
     flows (after (loadFlows true (Fulfilled page2) c0)) =
       flows c0 ++ processFlowData (Page.flows page2) /\
     hasMoreFlows (after (loadFlows true (Fulfilled page2) c0)) = Page.hasMore page2 /\
     currentOffset (after (loadFlows true (Fulfilled page2) c0)) = Page.totalLoaded page2 /\
     effects (loadFlows true (Fulfilled page2) c0) =
       [CallGetFlowDefinitions (currentOffset c0)]) /\
  (length (Page.flows page1) = 50%nat -> Page.hasMore page1 = true ->
   Page.totalLoaded page1 = 50%Z ->
   length (Page.flows page2) = 20%nat -> Page.hasMore page2 = false ->
   hasMoreFlows c1 = true /\
   effects out2 = [CallGetFlowDefinitions 50%Z] /\
   flows (after out2) =
     processFlowData (Page.flows page1) ++ processFlowData (Page.flows page2) /\
   map Flow.id (flows (after out2)) =
     map FlowSummary.id (Page.flows page1) ++ map FlowSummary.id (Page.flows page2) /\
   length (flows (after out2)) = 70%nat /\
   hasMoreFlows (after out2) = false).
Proof.
  intros c1 out2. split; [repeat split |]. split; [intros c0; repeat split |].
  intros Hlen1 Hmore1 Htotal1 Hlen2 Hmore2.
  assert (Hflows : flows (after out2) =
                   processFlowData (Page.flows page1) ++ processFlowData (Page.flows page2))
    by reflexivity.
  assert (Hids : forall data, map Flow.id (processFlowData data) = map FlowSummary.id data).
  { intros data. unfold processFlowData. rewrite map_map. reflexivity. }
  repeat apply conj.
  - exact Hmore1.
  - cbn. now rewrite Htotal1.
  - exact Hflows.
  - now rewrite Hflows, map_app, !Hids.
  - rewrite Hflows, length_app. unfold processFlowData. rewrite !length_map.
    now rewrite Hlen1, Hlen2.
  - exact Hmore2.
Qed.

(** ** The filtered view *)

Lemma filter_Subsequence {A : Type} (p : A -> bool) (l : list A) :
  Subsequence (filter p l) l.
Proof.
  induction l as [| x l IH]; cbn; [constructor |].
  destruct (p x); now constructor.
Qed.

Lemma Subsequence_refl {A : Type} (l : list A) : Subsequence l l.
Proof. induction l; now constructor. Qed.

Lemma Subsequence_trans {A : Type} (l1 l2 l3 : list A) :
  Subsequence l1 l2 -> Subsequence l2 l3 -> Subsequence l1 l3.
Proof.
  intros H12 H23. revert l1 H12.
  induction H23 as [| x l2 l3 H23 IH | x l2 l3 H23 IH]; intros l1 H12.
  - assumption.
  - apply Subsequence_skip. now apply IH.
  - inversion H12; subst.
    + apply Subsequence_skip. now apply IH.
    + apply Subsequence_keep. now apply IH.
Qed.

Lemma Subsequence_incl {A : Type} (l1 l2 : list A) : Subsequence l1 l2 -> incl l1 l2.
Proof.
  induction 1 as [| x l1 l2 H IH | x l1 l2 H IH]; intros y Hy.
  - assumption.
  - right. now apply IH.
  - destruct Hy as [-> | Hy]; [now left | right; now apply IH].
Qed.

(** C9: whatever the search term, the type filter and the status filter
    are, [filteredFlows] keeps some of the loaded flows in their order (so
    each filtered flow is a loaded flow), and [noResults] holds only when
    loading has finished and the filtered list is empty; in the initial,
    loading state the filtered list is empty and [noResults] is false. *)
Theorem filteredFlows_subsequence (c : Component) :
  Subsequence (filteredFlows c) (flows c) /\
  incl (filteredFlows c) (flows c) /\
  (noResults c = true -> isLoading c = false /\ filteredFlows c = []) /\
  (forall session,
     filteredFlows (initial session) = [] /\ noResults (initial session) = false).
Proof.
  assert (Hsub : Subsequence (filteredFlows c) (flows c)).
  { unfold filteredFlows.
    destruct (negb (searchTerm c =? "")), (negb (filterType c =? "")),
      (negb (filterStatus c =? ""));
      repeat (eapply Subsequence_trans; [apply filter_Subsequence |]);
      apply Subsequence_refl. }
  split; [exact Hsub |]. split; [now apply Subsequence_incl |].
  unfold noResults.
  split; [intros H | intros session; split; reflexivity].
  apply andb_true_iff in H as [Hload Hlen].
  apply negb_true_iff in Hload. apply Nat.eqb_eq in Hlen.
  split; [assumption | now apply length_zero_iff_nil].
Qed.

(** ** Delete submission *)

Lemma loadFlows_first_effects (page : Settled Page.t) (c : Component) :
  selectedVersionIds (after (loadFlows false page c)) = selectedVersionIds c /\
  flows (after (loadFlows false page c)) =
    match page with
    | Fulfilled response => processFlowData (Page.flows response)
    | Rejected _ => []
    end /\
  filter isListRequest (effects (loadFlows false page c)) = [CallGetFlowDefinitions 0%Z] /\
  consoleLines (effects (loadFlows false page c)) = [].
Proof. destruct page; repeat apply conj; reflexivity. Qed.

Lemma consoleLines_app (t1 t2 : list Effect) :
  consoleLines (t1 ++ t2) = consoleLines t1 ++ consoleLines t2.
Proof. apply flat_map_app. Qed.

Lemma consoleLines_failures (l : list DeletionResult) :
  consoleLines (map (fun r => ConsoleError (failureLine r)) l) = map failureLine l.
Proof. induction l as [| r l IH]; cbn; [reflexivity | now rewrite <- IH]. Qed.

Lemma isListRequest_failures (l : list DeletionResult) :
  filter isListRequest (map (fun r => ConsoleError (failureLine r)) l) = [].
Proof. induction l as [| r l IH]; cbn; [reflexivity | exact IH]. Qed.


(** C4: for a delete response with a positive failure count and a results
    array, the warning toast names the success count and the failure count
    separately, one console line with id and message is written for each
    entry whose [success] is false, in order, the selection set becomes
    empty, and the list is requested again from offset 0, the reloaded page
    replacing the flow list. *)
Theorem handleConfirmDelete_partial_success
        (c : Component) (result : DeleteResponse) (entries : list DeletionResult)
        (failed : Z) (reload : Settled Page.t) :
  failureCount result = JsValue failed ->
  (0 < failed)%Z ->
  results result = JsValue entries ->
  let out := handleConfirmDelete (Fulfilled (JsValue result)) reload c in
  selectedVersionIds (after out) = JsSet.empty /\
  In (ShowToast "Warning"
        ("Deleted " +++ showCount (successCount result)
         +++ " version(s). Failed to delete "
         +++ showCount (failureCount result) +++ " version(s).")
        "warning" false)
     (effects out) /\
  consoleLines (effects out) =
    map failureLine (filter (fun r => negb (success r)) entries) /\
  filter isListRequest (effects out) = [CallGetFlowDefinitions 0%Z] /\
  flows (after out) =
    match reload with
    | Fulfilled response => processFlowData (Page.flows response)
    | Rejected _ => []
    end.
Proof.
  intros Hfailed Hpos Hentries out.
  assert (Hnz : isZero (failureCount result) = false).
  { rewrite Hfailed. cbn. apply Z.eqb_neq. lia. }
  assert (Hnone : deleteFailure (Fulfilled (JsValue result)) = None).
  { cbn. now rewrite Hnz, Hentries. }
  unfold out. rewrite (handleConfirmDelete_answered _ _ _ Hnone), Hnz, Hentries.
  destruct (loadFlows_first_effects reload (cleared result c))
    as (Hsel & Hflows & Hreq & Hlines).
  cbn [after effects fst snd]. repeat apply conj.
  - exact Hsel.
  - right. left. reflexivity.
  - change (consoleLines
              ([CallDeleteFlowVersions (selectedVersionIds c) (sessionId c);
                ShowToast "Warning"
                  ("Deleted " +++ showCount (successCount result)
                   +++ " version(s). Failed to delete "
                   +++ showCount (failureCount result) +++ " version(s).")
                  "warning" false]
               ++ (map (fun r => ConsoleError (failureLine r))
                       (filter (fun r => negb (success r)) entries)
                   ++ effects (loadFlows false reload (cleared result c)))) =
            map failureLine (filter (fun r => negb (success r)) entries)).
    rewrite !consoleLines_app, consoleLines_failures, Hlines. cbn. apply app_nil_r.
  - cbn [app filter isListRequest]. rewrite filter_app, isListRequest_failures. exact Hreq.
  - exact Hflows.
Qed.

(** ** Select-all-inactive *)

Lemma with_selectedVersionIds_same (c : Component) :
  with_selectedVersionIds (selectedVersionIds c) c = c.
Proof. now destruct c. Qed.

Lemma selectIfInactive_all (isChecked : bool) (versions : list Version.t) (c : Component) :
  mapM (selectIfInactive isChecked) versions c =
  (Normal (markInactive isChecked versions),
   with_selectedVersionIds
     (applyAll isChecked (inactiveIds versions) (selectedVersionIds c)) c,
   []).
Proof.
  revert c. induction versions as [| v vs IH]; intros c.
  - cbn. now rewrite with_selectedVersionIds_same.
  - cbn [mapM]. unfold bind at 1. unfold selectIfInactive at 1.
    unfold markInactive, inactiveIds. cbn [map filter].
    destruct (negb (Version.isActive v)) eqn:Hv.
    + destruct isChecked; run_action; rewrite IH; reflexivity.
    + run_action. rewrite IH. reflexivity.
Qed.

Lemma applyAll_app (isChecked : bool) (ids1 ids2 : list string) (s : JsSet.t) :
  applyAll isChecked (ids1 ++ ids2) s = applyAll isChecked ids2 (applyAll isChecked ids1 s).
Proof. apply fold_left_app. Qed.

Lemma selectFlows_all (flowId : string) (isChecked : bool) (l : list Flow.t) (c : Component) :
  mapM (fun flow =>
          if (Flow.id flow =? flowId) && Flow.versionsLoaded flow then
            updatedVersions <- mapM (selectIfInactive isChecked) (Flow.versions flow) ;;
            ret (Flow.set_allInactiveSelected isChecked
                   (Flow.set_versions updatedVersions flow))
          else ret flow) l c =
  (Normal (map (markFlow flowId isChecked) l),
   with_selectedVersionIds
     (applyAll isChecked
        (flat_map (fun flow =>
                     if isTarget flowId flow then inactiveIds (Flow.versions flow) else []) l)
        (selectedVersionIds c)) c,
   []).
Proof.
  revert c. induction l as [| flow l IH]; intros c.
  - cbn. now rewrite with_selectedVersionIds_same.
  - cbn [mapM map flat_map]. unfold bind at 1. unfold markFlow at 1. unfold isTarget at 1 2.
    destruct ((Flow.id flow =? flowId) && Flow.versionsLoaded flow).
    + unfold bind at 1. rewrite selectIfInactive_all. run_action. rewrite IH.
      rewrite applyAll_app. reflexivity.
    + run_action. rewrite IH. reflexivity.
Qed.

Lemma handleSelectFlowInactive_run (flowId : string) (isChecked : bool) (c : Component) :
  handleSelectFlowInactive flowId isChecked c =
  (Normal tt,
   with_selectedVersionIds (applyAll isChecked (targetIds flowId c) (selectedVersionIds c))
     (with_flows (map (markFlow flowId isChecked) (flows c)) c),
   []).
Proof.
  unfold handleSelectFlowInactive, forceReactivity. unfold bind at 1. unfold read at 1.
  unfold bind at 1. rewrite selectFlows_all. reflexivity.
Qed.

Lemma has_applyAll (isChecked : bool) (ids : list string) (s : JsSet.t) (x : string) :
  JsSet.has x (applyAll isChecked ids s) =
  if isChecked then JsSet.has x s || existsb (String.eqb x) ids
  else JsSet.has x s && negb (existsb (String.eqb x) ids).
Proof.
  revert s. induction ids as [| y ids IH]; intros s.
  - destruct isChecked; cbn; [now rewrite orb_false_r | now rewrite andb_true_r].
  - unfold applyAll in *. cbn [fold_left existsb]. rewrite IH. destruct isChecked.
    + rewrite has_add. now rewrite orb_assoc, (orb_comm (x =? y)).
    + rewrite has_delete, negb_orb. now rewrite andb_assoc.
Qed.

Lemma targetIds_spec (flowId : string) (c : Component) (x : string) :
  existsb (String.eqb x) (targetIds flowId c) = true <-> inactiveVersionOf c flowId x.
Proof.
  unfold targetIds, inactiveVersionOf. rewrite existsb_exists. split.
  - intros [y [Hy Heq]]. apply String.eqb_eq in Heq. subst y.
    apply in_flat_map in Hy as [flow [Hflow Hx]].
    destruct (isTarget flowId flow) eqn:Ht; [| contradiction].
    unfold isTarget in Ht. apply andb_true_iff in Ht as [Hid Hloaded].
    apply String.eqb_eq in Hid.
    unfold inactiveIds in Hx. apply in_map_iff in Hx as [v [Hv Hin]].
    apply filter_In in Hin as [Hin Hact]. apply negb_true_iff in Hact.
    exists flow, v. repeat apply conj; assumption.
  - intros (flow & v & Hflow & Hid & Hloaded & Hin & Hact & Hx).
    exists x. split; [| apply String.eqb_refl].
    apply in_flat_map. exists flow. split; [assumption |].
    unfold isTarget. rewrite Hloaded. subst flowId. rewrite String.eqb_refl. cbn.
    unfold inactiveIds. apply in_map_iff. exists v. split; [assumption |].
    apply filter_In. split; [assumption | now apply negb_true_iff].
Qed.

(** C5: [handleSelectFlowInactive] calls [add] (checked) or [delete]
    (unchecked) for the ids of the versions with [isActive = false] of the
    loaded flow and for nothing else.  So afterwards an id is selected iff it
    was selected or is such an id (checked), respectively iff it was selected
    and is no such id (unchecked); an id that enters the set is the id of a
    version whose active flag is false. *)
Theorem handleSelectFlowInactive_selection (c : Component) (flowId x : string) :
  let checked := after (handleSelectFlowInactive flowId true c) in
  let unchecked := after (handleSelectFlowInactive flowId false c) in
  (In x (selectedVersionIds checked) <->
   In x (selectedVersionIds c) \/ inactiveVersionOf c flowId x) /\
  (In x (selectedVersionIds unchecked) <->
   In x (selectedVersionIds c) /\ ~ inactiveVersionOf c flowId x) /\
  selectedVersionIds checked =
    fold_left (fun acc y => JsSet.add y acc) (targetIds flowId c) (selectedVersionIds c) /\
  selectedVersionIds unchecked =
    fold_left (fun acc y => JsSet.delete y acc) (targetIds flowId c) (selectedVersionIds c) /\
  (forall y, In y (targetIds flowId c) <-> inactiveVersionOf c flowId y).
Proof using.
  intros checked unchecked. unfold checked, unchecked.
  rewrite !handleSelectFlowInactive_run. cbn [after fst snd].
  cbn [selectedVersionIds with_selectedVersionIds].
  refine (conj _ (conj _ (conj eq_refl (conj eq_refl _)))).
  - rewrite <- !has_In, has_applyAll. cbv beta iota.
    rewrite orb_true_iff, targetIds_spec. apply iff_refl.
  - rewrite <- !has_In, has_applyAll. cbv beta iota.
    rewrite andb_true_iff, negb_true_iff, <- targetIds_spec, not_true_iff_false.
    apply iff_refl.
  - intros y. rewrite <- targetIds_spec, existsb_exists. split.
    + intros Hy. exists y. split; [assumption | apply String.eqb_refl].
    + intros [z [Hz Heq]]. apply String.eqb_eq in Heq. now subst.
Qed.

(** ** Checkbox state and selection set *)

Lemma forallb_map_impl {A B : Type} (p : A -> bool) (q : B -> bool) (g : A -> B)
      (l : list A) :
  (forall x, In x l -> p x = true -> q (g x) = true) ->
  forallb p l = true -> forallb q (map g l) = true.
Proof.
  intros Hg Hl. apply forallb_forall. intros y Hy.
  apply in_map_iff in Hy as [x [<- Hx]].
  apply Hg; [assumption |]. now apply (proj1 (forallb_forall p l) Hl).
Qed.

Lemma mapFrom_In {A B : Type} (g : A -> nat -> B) (l : list A) (i : nat) (y : B) :
  In y (mapFrom i g l) -> exists x k, In x l /\ y = g x k.
Proof.
  revert i. induction l as [| x l IH]; intros i Hy; [contradiction |].
  destruct Hy as [<- | Hy].
  - exists x, i. split; [now left | reflexivity].
  - apply IH in Hy as (x' & k & Hx' & ->). exists x', k. split; [now right | reflexivity].
Qed.

Lemma forallb_mapi_impl {A B : Type} (p : A -> bool) (q : B -> bool) (g : A -> nat -> B)
      (l : list A) :
  (forall x k, In x l -> p x = true -> q (g x k) = true) ->
  forallb p l = true -> forallb q (mapi g l) = true.
Proof.
  intros Hg Hl. apply forallb_forall. intros y Hy.
  apply mapFrom_In in Hy as (x & k & Hx & ->).
  apply Hg; [assumption |]. now apply (proj1 (forallb_forall p l) Hl).
Qed.


Lemma versionIdsConsistent_spec (c : Component) :
  versionIdsConsistent c = true ->
  forall f v g w,
    In f (flows c) -> In v (Flow.versions f) ->
    In g (flows c) -> In w (Flow.versions g) ->
    Version.id v = Version.id w ->
    Flow.id f = Flow.id g /\ Version.isActive v = Version.isActive w.
Proof.
  unfold versionIdsConsistent. intros H f v g w Hf Hv Hg Hw Hid.
  rewrite forallb_forall in H. specialize (H f Hf).
  rewrite forallb_forall in H. specialize (H v Hv).
  rewrite forallb_forall in H. specialize (H g Hg).
  rewrite forallb_forall in H. specialize (H w Hw).
  rewrite Hid, String.eqb_refl in H. cbn in H.
  apply andb_true_iff in H as [H1 H2].
  split; [now apply String.eqb_eq | now apply eqb_prop].
Qed.



(** *** Handlers that rewrite the flow list row by row *)

Lemma Forall2_mapFrom {A B : Type} (R : A -> B -> Prop) (g : A -> nat -> B)
      (l : list A) (i : nat) :
  (forall x k, R x (g x k)) -> Forall2 R l (mapFrom i g l).
Proof.
  intros Hg. revert i. induction l as [| x l IH]; intros i; cbn; constructor; auto.
Qed.

Lemma Forall2_map_right {A B : Type} (R : A -> B -> Prop) (g : A -> B) (l : list A) :
  (forall x, R x (g x)) -> Forall2 R l (map g l).
Proof. intros Hg. induction l as [| x l IH]; cbn; constructor; auto. Qed.

Lemma Forall2_same {A : Type} (R : A -> A -> Prop) (l : list A) :
  (forall x, R x x) -> Forall2 R l l.
Proof. intros HR. induction l; constructor; auto. Qed.

Lemma Forall2_forallb {A B : Type} (p : A -> bool) (q : B -> bool) (l : list A) (l' : list B) :
  Forall2 (fun x y => p x = true -> q y = true) l l' ->
  forallb p l = true -> forallb q l' = true.
Proof.
  induction 1 as [| x y l l' Hxy Hl IH]; [reflexivity |].
  cbn. rewrite !andb_true_iff. intros [Hx Hrest]. split; auto.
Qed.

(** The start of a toggle changes at most the expansion fields of one row. *)
Lemma toggleFlowExpansion_start_rows (R : Flow.t -> Flow.t -> Prop) (flowId : string)
      (c : Component) :
  (forall f, R f f) ->
  (forall f expanded icon loading, R f (Flow.set_expansion expanded icon loading f)) ->
  Forall2 R (flows c) (flows (after (toggleFlowExpansion_start flowId c))) /\
  selectedVersionIds (after (toggleFlowExpansion_start flowId c)) = selectedVersionIds c.
Proof.
  intros Hsame Hexp. unfold toggleFlowExpansion_start. run_action.
  destruct (findIndex (fun f => Flow.id f =? flowId) (flows c)) as [flowIndex |];
    [| split; [now apply Forall2_same | reflexivity]].
  destruct (nth_error (flows c) flowIndex) as [flow |];
    [| split; [now apply Forall2_same | reflexivity]].
  assert (Hrows : Forall2 R (flows c)
            (mapi (fun f idx =>
                     if (idx =? flowIndex)%nat then
                       Flow.set_expansion (negb (Flow.isExpanded flow))
                         (if negb (Flow.isExpanded flow) then "utility:chevrondown"
                          else "utility:chevronright")
                         (negb (Flow.isExpanded flow) && negb (Flow.versionsLoaded f)) f
                     else f) (flows c))).
  { apply Forall2_mapFrom. intros f k. destruct (k =? flowIndex)%nat; auto. }
  destruct (negb (Flow.isExpanded flow) && negb (Flow.versionsLoaded flow));
    split; first [exact Hrows | reflexivity].
Qed.

(** The settlement of a version fetch rewrites one row: with the loaded
    versions, or with the loading flag reset. *)
Lemma toggleFlowExpansion_resume_rows (R : Flow.t -> Flow.t -> Prop) (fetch : VersionFetch)
      (outcome : Settled (list VersionDetail.t)) (c : Component) :
  (forall f, R f f) ->
  (forall f loading, R f (Flow.set_isLoadingVersions loading f)) ->
  (forall f versions flowName flowRecordId noInactive allSelected count lbl,
     R f (Flow.set_loaded
            (processVersionData (selectedVersionIds c) versions flowName flowRecordId)
            noInactive allSelected count lbl f)) ->
  Forall2 R (flows c) (flows (after (toggleFlowExpansion_resume fetch outcome c))) /\
  selectedVersionIds (after (toggleFlowExpansion_resume fetch outcome c)) =
    selectedVersionIds c.
Proof.
  intros Hsame Hloading Hloaded. unfold toggleFlowExpansion_resume.
  destruct outcome as [versions | e]; run_action; cbn [after fst snd flows with_flows];
    (split; [| reflexivity]); apply Forall2_mapFrom; intros f k;
    destruct (k =? fetch_flowIndex fetch)%nat; auto.
Qed.











(** ** Version fetches *)

Lemma versionsLoadedFor_rows (flowId : string) (c c' : Component) :
  Forall2 keepsLoaded (flows c) (flows c') ->
  versionsLoadedFor flowId c = true -> versionsLoadedFor flowId c' = true.
Proof.
  unfold versionsLoadedFor. generalize (flows c) as l, (flows c') as l'. intros l l' H.
  induction H as [| f f' l l' [Hid Hloaded] Hrest IH]; [discriminate |].
  cbn [findIndex]. rewrite Hid. destruct (Flow.id f =? flowId).
  - cbn. exact Hloaded.
  - destruct (findIndex (fun f0 => Flow.id f0 =? flowId) l) as [i |];
      destruct (findIndex (fun f0 => Flow.id f0 =? flowId) l') as [i' |];
      cbn in *; auto.
Qed.

Lemma toggleFlowExpansion_start_outcome (flowId : string) (c : Component) :
  let r := toggleFlowExpansion_start flowId c in
  (effects r = [] /\ forall fetch, completion r <> Normal (Some fetch)) \/
  (exists fetch,
     completion r = Normal (Some fetch) /\
     effects r = [CallGetFlowVersions flowId (Flow.activeVersionId (fetch_flow fetch))] /\
     fetch_flowId fetch = flowId /\
     findIndex (fun f => Flow.id f =? flowId) (flows c) = Some (fetch_flowIndex fetch) /\
     nth_error (flows c) (fetch_flowIndex fetch) = Some (fetch_flow fetch) /\
     Flow.isExpanded (fetch_flow fetch) = false /\
     Flow.versionsLoaded (fetch_flow fetch) = false).
Proof.
  unfold toggleFlowExpansion_start. run_action.
  destruct (findIndex (fun f => Flow.id f =? flowId) (flows c)) as [flowIndex |];
    [| left; split; [reflexivity | discriminate]].
  destruct (nth_error (flows c) flowIndex) as [flow |] eqn:Hnth;
    [| left; split; [reflexivity | discriminate]].
  destruct (Flow.isExpanded flow) eqn:Hexp; cbn [negb andb];
    [left; split; [reflexivity | discriminate] |].
  destruct (Flow.versionsLoaded flow) eqn:Hloaded; cbn [negb];
    [left; split; [reflexivity | discriminate] |].
  right. eexists. repeat apply conj; try reflexivity; cbn; assumption.
Qed.

Lemma toggleFlowExpansion_start_loaded (flowId : string) (c : Component) :
  versionsLoadedFor flowId c = true ->
  effects (toggleFlowExpansion_start flowId c) = [] /\
  forall fetch, completion (toggleFlowExpansion_start flowId c) <> Normal (Some fetch).
Proof.
  intros H. destruct (toggleFlowExpansion_start_outcome flowId c) as [Hnone | Hsome];
    [exact Hnone |].
  destruct Hsome as (fetch & _ & _ & _ & Hfind & Hnth & _ & Hloaded).
  unfold versionsLoadedFor in H. rewrite Hfind, Hnth in H. congruence.
Qed.

Lemma keepsLoaded_step (w : World) (ev : Event) :
  Forall2 keepsLoaded (flows (component w)) (flows (component (step w ev))).
Proof.
  assert (Hsame : forall f, keepsLoaded f f) by (intros f; split; auto).
  destruct ev as [flowId | k outcome | versionId isChecked | flowId isChecked]; cbn [step].
  - destruct (toggleFlowExpansion_start_rows keepsLoaded flowId (component w)) as [Hrows _];
      [exact Hsame | intros; split; auto |].
    unfold after in Hrows.
    destruct (toggleFlowExpansion_start flowId (component w)) as [[[[fetch |] | e] c'] t];
      exact Hrows.
  - destruct (nth_error (inflight w) k) as [fetch |]; [| now apply Forall2_same].
    apply toggleFlowExpansion_resume_rows; [exact Hsame | |]; intros; split; auto.
  - cbn [component]. rewrite handleVersionSelect_flows, map_map.
    apply Forall2_map_right. intros f. cbn.
    destruct (Flow.versionsLoaded f) eqn:Hloaded; split; cbn; auto.
  - cbn [component]. rewrite handleSelectFlowInactive_run. cbn.
    apply Forall2_map_right. intros f. unfold markFlow.
    destruct (isTarget flowId f); split; auto.
Qed.

Lemma filter_removeNth_length {A : Type} (p : A -> bool) (k : nat) (l : list A) :
  (length (filter p (removeNth k l)) <= length (filter p l))%nat.
Proof.
  revert k. induction l as [| x l IH]; intros k; [destruct k; cbn; lia |].
  destruct k as [| k]; cbn [removeNth filter].
  - destruct (p x); cbn; lia.
  - specialize (IH k). destruct (p x); cbn; lia.
Qed.

Lemma step_loaded (w : World) (ev : Event) (flowId : string) :
  versionsLoadedFor flowId (component w) = true ->
  versionsLoadedFor flowId (component (step w ev)) = true /\
  versionRequestsFor flowId (step w ev) = versionRequestsFor flowId w /\
  (length (inflightFor flowId (step w ev)) <= length (inflightFor flowId w))%nat.
Proof.
  intros H. split.
  { revert H. apply versionsLoadedFor_rows, keepsLoaded_step. }
  unfold versionRequestsFor, inflightFor.
  destruct ev as [flowId' | k outcome | versionId isChecked | flowId' isChecked]; cbn [step].
  - pose proof (toggleFlowExpansion_start_outcome flowId' (component w)) as Hout.
    pose proof (toggleFlowExpansion_start_loaded flowId' (component w)) as Hguard.
    cbv zeta in Hout. unfold effects, completion in Hout, Hguard.
    destruct (toggleFlowExpansion_start flowId' (component w)) as [[r c'] t].
    cbn [fst snd] in Hout, Hguard.
    destruct Hout as [[-> Hnone] | (fetch & -> & -> & Hid & _)].
    + rewrite app_nil_r.
      destruct r as [[fetch |] | e]; cbn [trace inflight]; try (split; reflexivity).
      exfalso. now apply (Hnone fetch).
    + cbn [trace inflight]. rewrite !filter_app, !length_app. cbn [filter isVersionRequestFor].
      rewrite Hid. destruct (String.eqb_spec flowId' flowId) as [-> | Hneq].
      * destruct (Hguard H) as [_ Hnone]. exfalso. now apply (Hnone fetch).
      * cbn. lia.
  - destruct (nth_error (inflight w) k) as [fetch |]; [| split; reflexivity].
    cbn [trace inflight]. split; [| apply filter_removeNth_length].
    rewrite filter_app, length_app.
    destruct outcome as [versions | e]; cbn; lia.
  - cbn [trace inflight]. rewrite handleVersionSelect_effects, app_nil_r. split; reflexivity.
  - cbn [trace inflight]. rewrite handleSelectFlowInactive_run. cbn [effects snd].
    rewrite app_nil_r. split; reflexivity.
Qed.

(** C6 (as amended): the only guard of a version fetch is the flow's
    versions-loaded flag.  Once the flow that a toggle of [flowId] finds has
    its versions loaded, no sequence of toggles, fetch settlements and
    selection changes sends another version request for [flowId] or adds a
    fetch in flight for it, and the flag stays set.  A toggle starts a fetch
    exactly for a collapsed flow whose flag is not set, whether or not an
    earlier fetch for it is still in flight. *)
Theorem loaded_flow_not_fetched_again (w : World) (flowId : string) (events : list Event) :
  versionsLoadedFor flowId (component w) = true ->
  (versionsLoadedFor flowId (component (run w events)) = true /\
   versionRequestsFor flowId (run w events) = versionRequestsFor flowId w /\
   (length (inflightFor flowId (run w events)) <= length (inflightFor flowId w))%nat) /\
  (forall c fetch,
     completion (toggleFlowExpansion_start flowId c) = Normal (Some fetch) <->
     exists i flow,
       findIndex (fun f => Flow.id f =? flowId) (flows c) = Some i /\
       nth_error (flows c) i = Some flow /\
       Flow.isExpanded flow = false /\ Flow.versionsLoaded flow = false /\
       fetch = {| fetch_flowId := flowId; fetch_flowIndex := i; fetch_flow := flow |}).
Proof.
  intros H. split.
  - revert w H. induction events as [| ev events IH]; intros w H.
    + cbn. repeat apply conj; auto.
    + destruct (step_loaded w ev flowId H) as (H1 & H2 & H3).
      destruct (IH (step w ev) H1) as (H4 & H5 & H6).
      cbn [run fold_left]. fold (run (step w ev) events).
      repeat apply conj; [assumption | congruence | lia].
  - intros c fetch. unfold toggleFlowExpansion_start. run_action. unfold completion. split.
    + destruct (findIndex (fun f => Flow.id f =? flowId) (flows c)) as [i |];
        [| discriminate].
      destruct (nth_error (flows c) i) as [flow |] eqn:Hnth; [| discriminate].
      destruct (Flow.isExpanded flow) eqn:Hexp; cbn [negb andb]; [discriminate |].
      destruct (Flow.versionsLoaded flow) eqn:Hloaded; cbn [negb]; [discriminate |].
      cbn. intros Heq. injection Heq as <-. exists i, flow. repeat apply conj; auto.
    + intros (i & flow & -> & -> & -> & Hloaded & ->). cbn [negb andb].
      rewrite Hloaded. reflexivity.
Qed.

(** * Further properties *)

(** ** Access check *)

(** X1: when the access check answers [false] or fails, the component is
    marked access-denied with loading finished, the flow list is untouched
    and no page of flows is requested; a failed check shows one error toast,
    a refusal shows none. *)
Theorem checkAccess_refused_fetches_nothing (c : Component) (page : Settled Page.t)
        (e : JsError) :
  let denied := checkAccessAndLoadData (Fulfilled false) page c in
  let failed := checkAccessAndLoadData (Rejected e) page c in
  (completion denied = Normal tt /\
   accessDenied (after denied) = true /\ isLoading (after denied) = false /\
   flows (after denied) = flows c /\
   effects denied = [CallHasAccess]) /\
  (completion failed = Normal tt /\
   accessDenied (after failed) = true /\ isLoading (after failed) = false /\
   flows (after failed) = flows c /\
   effects failed =
     [CallHasAccess;
      ShowToast "Error" ("Error checking access: " +++ reduceError e) "error" true]).
Proof. repeat apply conj; reflexivity. Qed.

(** X2: when access is granted the first page is loaded exactly as by
    [loadFlows]; a page load that fails is reported as a load error and
    does not mark the component access-denied. *)
Theorem checkAccess_granted_loads_first_page (c : Component) (page : Settled Page.t) :
  let out := checkAccessAndLoadData (Fulfilled true) page c in
  completion out = Normal tt /\
  after out = after (loadFlows false page c) /\
  effects out = CallHasAccess :: effects (loadFlows false page c) /\
  accessDenied (after out) = accessDenied c /\
  errorToasts (effects out) =
    match page with
    | Fulfilled _ => []
    | Rejected e =>
        [ShowToast "Error" ("Error loading flows: " +++ reduceError e) "error" true]
    end.
Proof. destruct page as [response | e]; repeat apply conj; reflexivity. Qed.

(** ** Expanding a flow *)

Lemma nth_error_mapFrom {A B : Type} (g : A -> nat -> B) (l : list A) (i j : nat) :
  nth_error (mapFrom i g l) j = option_map (fun x => g x (i + j)%nat) (nth_error l j).
Proof.
  revert i j. induction l as [| x l IH]; intros i j; [now destruct j |].
  destruct j as [| j]; cbn.
  - now rewrite Nat.add_0_r.
  - rewrite IH. now rewrite Nat.add_succ_r.
Qed.

Lemma nth_error_mapi {A B : Type} (g : A -> nat -> B) (l : list A) (j : nat) :
  nth_error (mapi g l) j = option_map (fun x => g x j) (nth_error l j).
Proof. unfold mapi. now rewrite nth_error_mapFrom. Qed.


Lemma findIndex_found {A : Type} (p : A -> bool) (l : list A) (i : nat) :
  findIndex p l = Some i -> exists x, nth_error l i = Some x /\ p x = true.
Proof.
  revert i. induction l as [| y l IH]; intros i H; [discriminate |].
  cbn in H. destruct (p y) eqn:Hy.
  - injection H as <-. now exists y.
  - destruct (findIndex p l) as [k |]; [| discriminate].
    injection H as <-. now apply IH.
Qed.

Lemma findIndex_exists {A : Type} (p : A -> bool) (l : list A) (x : A) :
  In x l -> p x = true -> exists i, findIndex p l = Some i.
Proof.
  induction l as [| y l IH]; intros Hin Hp; [contradiction |].
  cbn. destruct (p y) eqn:Hy; [now exists O |].
  destruct Hin as [-> | Hin]; [congruence |].
  destruct (IH Hin Hp) as [i ->]. now exists (S i).
Qed.

(** The start of a toggle on a flow that is found. *)
Lemma toggleFlowExpansion_start_found (flowId : string) (c : Component) (i : nat)
      (flow : Flow.t) :
  findIndex (fun f => Flow.id f =? flowId) (flows c) = Some i ->
  nth_error (flows c) i = Some flow ->
  toggleFlowExpansion_start flowId c =
  (Normal (if negb (Flow.isExpanded flow) && negb (Flow.versionsLoaded flow)
           then Some {| fetch_flowId := flowId; fetch_flowIndex := i; fetch_flow := flow |}
           else None),
   with_flows
     (mapi (fun f idx =>
              if (idx =? i)%nat then
                Flow.set_expansion (negb (Flow.isExpanded flow))
                  (if negb (Flow.isExpanded flow) then "utility:chevrondown"
                   else "utility:chevronright")
                  (negb (Flow.isExpanded flow) && negb (Flow.versionsLoaded f)) f
              else f) (flows c)) c,
   if negb (Flow.isExpanded flow) && negb (Flow.versionsLoaded flow)
   then [CallGetFlowVersions flowId (Flow.activeVersionId flow)] else []).
Proof.
  intros Hfind Hnth. unfold toggleFlowExpansion_start. run_action.
  rewrite Hfind, Hnth.
  destruct (negb (Flow.isExpanded flow) && negb (Flow.versionsLoaded flow)); reflexivity.
Qed.

Lemma toggleFlowExpansion_resume_loaded_row (fetch : VersionFetch)
      (versions : list VersionDetail.t) (c : Component) :
  let out := toggleFlowExpansion_resume fetch (Fulfilled versions) c in
  let rows := processVersionData (selectedVersionIds c) versions
                (Flow.developerName (fetch_flow fetch))
                (Flow.flowRecordId (fetch_flow fetch)) in
  completion out = Normal tt /\
  effects out = [] /\
  selectedVersionIds (after out) = selectedVersionIds c /\
  (forall j, j <> fetch_flowIndex fetch ->
     nth_error (flows (after out)) j = nth_error (flows c) j) /\
  nth_error (flows (after out)) (fetch_flowIndex fetch) =
    option_map
      (Flow.set_loaded rows (negb (hasInactive rows))
         (checkAllInactiveSelected (selectedVersionIds c) rows)
         (Z.of_nat (length rows)) (versionsText (Z.of_nat (length rows))))
      (nth_error (flows c) (fetch_flowIndex fetch)).
Proof.
  intros out rows. unfold out, toggleFlowExpansion_resume. run_action.
  cbn [completion after effects fst snd flows with_flows selectedVersionIds app].
  repeat apply conj; try reflexivity.
  - intros j Hj. rewrite nth_error_mapi.
    destruct (nth_error (flows c) j) as [f |]; [| reflexivity]. cbn.
    apply Nat.eqb_neq in Hj. now rewrite Hj.
  - rewrite nth_error_mapi.
    destruct (nth_error (flows c) (fetch_flowIndex fetch)) as [f |]; [| reflexivity].
    cbn. now rewrite Nat.eqb_refl.
Qed.

Lemma processVersionData_shape (selected : JsSet.t) (versions : list VersionDetail.t)
      (flowName : string) (flowRecordId : Nullable string) :
  let rows := processVersionData selected versions flowName flowRecordId in
  length rows = length versions /\
  hasInactive rows = existsb (fun v => negb (VersionDetail.isActive v)) versions.
Proof.
  unfold processVersionData, hasInactive. split; [apply length_map |].
  induction versions as [| v vs IH]; [reflexivity |]. cbn. now rewrite IH.
Qed.

(** X3: expanding a collapsed flow whose versions are not loaded sends one
    version request for it.  When the versions arrive, whatever has run in
    between, they are written to the row at the position the flow had when
    the request was sent, whichever flow holds that position by then: that
    row keeps its id and its expansion state, is no longer loading, is marked
    loaded, holds the processed versions, counts them in [versionCount] and
    [versionLabel], and has [hasNoInactive] and [allInactiveSelected]
    computed from them and the selection set at that time; every other row
    and the selection set are unchanged, and nothing is written when the
    position no longer exists.  When nothing has run in between, that row is
    the expanded flow's own row. *)
Theorem toggleFlowExpansion_loads_versions (flowId : string) (c : Component) (i : nat)
        (flow : Flow.t) (versions : list VersionDetail.t) :
  findIndex (fun f => Flow.id f =? flowId) (flows c) = Some i ->
  nth_error (flows c) i = Some flow ->
  Flow.isExpanded flow = false ->
  Flow.versionsLoaded flow = false ->
  let fetch := {| fetch_flowId := flowId; fetch_flowIndex := i; fetch_flow := flow |} in
  (completion (toggleFlowExpansion_start flowId c) = Normal (Some fetch) /\
   effects (toggleFlowExpansion_start flowId c) =
     [CallGetFlowVersions flowId (Flow.activeVersionId flow)]) /\
  (forall later,
     let out := toggleFlowExpansion_resume fetch (Fulfilled versions) later in
     let rows := processVersionData (selectedVersionIds later) versions
                   (Flow.developerName flow) (Flow.flowRecordId flow) in
     completion out = Normal tt /\
     effects out = [] /\
     selectedVersionIds (after out) = selectedVersionIds later /\
     (forall j, j <> i -> nth_error (flows (after out)) j = nth_error (flows later) j) /\
     (nth_error (flows later) i = None -> flows (after out) = flows later) /\
     (forall found, nth_error (flows later) i = Some found ->
        exists row,
          nth_error (flows (after out)) i = Some row /\
          Flow.id row = Flow.id found /\
          Flow.developerName row = Flow.developerName found /\
          Flow.isExpanded row = Flow.isExpanded found /\
          Flow.isLoadingVersions row = false /\
          Flow.versionsLoaded row = true /\
          Flow.versions row = rows /\
          Flow.versionCount row = JsValue (Z.of_nat (length versions)) /\
          Flow.versionLabel row = versionsText (Z.of_nat (length versions)) /\
          Flow.hasNoInactive row =
            negb (existsb (fun v => negb (VersionDetail.isActive v)) versions) /\
          Flow.allInactiveSelected row =
            checkAllInactiveSelected (selectedVersionIds later) rows)) /\
  (let out := toggleFlowExpansion flowId (Fulfilled versions) c in
   let rows := processVersionData (selectedVersionIds c) versions
                 (Flow.developerName flow) (Flow.flowRecordId flow) in
   effects out = [CallGetFlowVersions flowId (Flow.activeVersionId flow)] /\
   selectedVersionIds (after out) = selectedVersionIds c /\
   (forall j, j <> i -> nth_error (flows (after out)) j = nth_error (flows c) j) /\
   exists row,
     nth_error (flows (after out)) i = Some row /\
     Flow.id row = Flow.id flow /\
     Flow.isExpanded row = true /\
     Flow.expandIcon row = "utility:chevrondown" /\
     Flow.isLoadingVersions row = false /\
     Flow.versionsLoaded row = true /\
     Flow.versions row = rows /\
     Flow.versionCount row = JsValue (Z.of_nat (length versions)) /\
     Flow.versionLabel row = versionsText (Z.of_nat (length versions)) /\
     Flow.hasNoInactive row =
       negb (existsb (fun v => negb (VersionDetail.isActive v)) versions) /\
     Flow.allInactiveSelected row = checkAllInactiveSelected (selectedVersionIds c) rows).
Proof.
  intros Hfind Hnth Hexp Hloaded fetch.
  pose proof (toggleFlowExpansion_start_found flowId c i flow Hfind Hnth) as Hstart.
  rewrite Hexp, Hloaded in Hstart. cbn [negb andb] in Hstart. fold fetch in Hstart.
  assert (Hwritten : forall later found,
            nth_error (flows later) i = Some found ->
            exists row,
              nth_error (flows (after (toggleFlowExpansion_resume fetch (Fulfilled versions)
                                         later))) i = Some row /\
              Flow.id row = Flow.id found /\
              Flow.developerName row = Flow.developerName found /\
              Flow.isExpanded row = Flow.isExpanded found /\
              Flow.expandIcon row = Flow.expandIcon found /\
              Flow.isLoadingVersions row = false /\
              Flow.versionsLoaded row = true /\
              Flow.versions row =
                processVersionData (selectedVersionIds later) versions
                  (Flow.developerName flow) (Flow.flowRecordId flow) /\
              Flow.versionCount row = JsValue (Z.of_nat (length versions)) /\
              Flow.versionLabel row = versionsText (Z.of_nat (length versions)) /\
              Flow.hasNoInactive row =
                negb (existsb (fun v => negb (VersionDetail.isActive v)) versions) /\
              Flow.allInactiveSelected row =
                checkAllInactiveSelected (selectedVersionIds later)
                  (processVersionData (selectedVersionIds later) versions
                     (Flow.developerName flow) (Flow.flowRecordId flow))).
  { intros later found Hfound.
    destruct (toggleFlowExpansion_resume_loaded_row fetch versions later)
      as (_ & _ & _ & _ & Hrow).
    change (fetch_flowIndex fetch) with i in Hrow.
    change (fetch_flow fetch) with flow in Hrow.
    rewrite Hfound in Hrow. cbn [option_map] in Hrow.
    destruct (processVersionData_shape (selectedVersionIds later) versions
                (Flow.developerName flow) (Flow.flowRecordId flow)) as [Hlen Hinact].
    eexists. split; [exact Hrow |].
    cbn [Flow.id Flow.developerName Flow.isExpanded Flow.expandIcon Flow.isLoadingVersions
         Flow.versionsLoaded Flow.versions Flow.versionCount Flow.versionLabel
         Flow.hasNoInactive Flow.allInactiveSelected Flow.set_loaded].
    rewrite Hlen, Hinact. repeat apply conj; reflexivity. }
  refine (conj _ (conj _ _)).
  - rewrite Hstart. split; reflexivity.
  - intros later out rows.
    destruct (toggleFlowExpansion_resume_loaded_row fetch versions later)
      as (Hdone & Heff & Hsel & Hothers & Hrow).
    change (fetch_flowIndex fetch) with i in Hothers, Hrow.
    refine (conj Hdone (conj Heff (conj Hsel (conj Hothers (conj _ _))))).
    + intros Hnone. apply nth_error_ext. intros j.
      destruct (Nat.eq_dec j i) as [-> | Hj]; [| now apply Hothers].
      unfold out. rewrite Hrow, Hnone. reflexivity.
    + intros found Hfound.
      destruct (Hwritten later found Hfound)
        as (row & H0 & H1 & H2 & H3 & _ & H5 & H6 & H7 & H8 & H9 & H10 & H11).
      exists row. repeat apply conj; assumption.
  - intros out rows.
    set (started := with_flows
                      (mapi (fun f idx =>
                               if (idx =? i)%nat then
                                 Flow.set_expansion true "utility:chevrondown"
                                   (negb (Flow.versionsLoaded f)) f
                               else f) (flows c)) c).
    assert (Hstart' : toggleFlowExpansion_start flowId c =
                      (Normal (Some fetch), started,
                       [CallGetFlowVersions flowId (Flow.activeVersionId flow)]))
      by (rewrite Hstart; reflexivity).
    destruct (toggleFlowExpansion_resume_loaded_row fetch versions started)
      as (Hdone & Heff & Hsel & Hothers & _).
    change (fetch_flowIndex fetch) with i in Hothers.
    assert (Hout : after out =
                   after (toggleFlowExpansion_resume fetch (Fulfilled versions) started) /\
                   effects out = [CallGetFlowVersions flowId (Flow.activeVersionId flow)]).
    { unfold out, toggleFlowExpansion, bind. rewrite Hstart'.
      destruct (toggleFlowExpansion_resume fetch (Fulfilled versions) started)
        as [[r c2] t2]. cbn in Heff. subst t2. split; reflexivity. }
    destruct Hout as [Hafter Heffects].
    assert (Hfound : nth_error (flows started) i =
                     Some (Flow.set_expansion true "utility:chevrondown" true flow)).
    { unfold started. cbn [flows with_flows]. rewrite nth_error_mapi, Hnth. cbn.
      now rewrite Nat.eqb_refl, Hloaded. }
    destruct (Hwritten started _ Hfound)
      as (row & H0 & H1 & _ & H3 & H4 & H5 & H6 & H7 & H8 & H9 & H10 & H11).
    refine (conj Heffects (conj _ (conj _ _))).
    + now rewrite Hafter, Hsel.
    + intros j Hj. rewrite Hafter, (Hothers j Hj). unfold started. cbn [flows with_flows].
      rewrite nth_error_mapi. destruct (nth_error (flows c) j) as [f |]; [| reflexivity].
      cbn. apply Nat.eqb_neq in Hj. now rewrite Hj.
    + exists row. rewrite Hafter. repeat apply conj; assumption.
Qed.




(** ** Operations on flows that are not there *)

Lemma with_flows_same (c : Component) : with_flows (flows c) c = c.
Proof. now destruct c. Qed.

(** X5: toggling a flow id that is not in the list, and select-all-inactive
    on a flow id that has no row with loaded versions, change nothing in the
    component and have no effect. *)
Theorem absent_flow_is_left_alone (flowId : string) (isChecked : bool) (c : Component) :
  (findIndex (fun f => Flow.id f =? flowId) (flows c) = None ->
   toggleFlowExpansion_start flowId c = (Normal None, c, [])) /\
  (forallb (fun flow => negb (isTarget flowId flow)) (flows c) = true ->
   handleSelectFlowInactive flowId isChecked c = (Normal tt, c, [])).
Proof.
  split.
  - intros H. unfold toggleFlowExpansion_start. run_action. now rewrite H.
  - intros H. rewrite handleSelectFlowInactive_run. rewrite forallb_forall in H.
    assert (Hflows : map (markFlow flowId isChecked) (flows c) = flows c).
    { rewrite <- (map_id (flows c)) at 2. apply map_ext_in. intros f Hf.
      unfold markFlow. specialize (H f Hf). apply negb_true_iff in H. now rewrite H. }
    assert (Hids : targetIds flowId c = []).
    { unfold targetIds. revert H. generalize (flows c) as l.
      induction l as [| f l IH]; intros H; [reflexivity |].
      cbn. assert (Hf : isTarget flowId f = false)
        by (apply negb_true_iff, H; now left).
      rewrite Hf. cbn. apply IH. intros x Hx. apply H. now right. }
    rewrite Hflows, Hids. cbn [applyAll fold_left].
    now rewrite with_flows_same, with_selectedVersionIds_same.
Qed.

(** ** The selection set across expansion and loading *)

Lemma step_expansion_selection (w : World) (ev : Event) :
  isExpansionEvent ev = true ->
  selectedVersionIds (component (step w ev)) = selectedVersionIds (component w).
Proof.
  destruct ev as [flowId | k outcome | versionId isChecked | flowId isChecked];
    try discriminate; intros _; cbn [step].
  - destruct (toggleFlowExpansion_start_rows (fun _ _ => True) flowId (component w))
      as [_ Hsel]; auto.
    unfold after in Hsel.
    destruct (toggleFlowExpansion_start flowId (component w)) as [[[[fetch |] | e] c'] t];
      exact Hsel.
  - destruct (nth_error (inflight w) k) as [fetch |]; [| reflexivity].
    now destruct (toggleFlowExpansion_resume_rows (fun _ _ => True) fetch outcome (component w)).
Qed.

(** X6: the selection set is not pruned by expanding or collapsing flows,
    by version fetches that settle, or by loading pages of flows: after any
    sequence of toggles and settlements, and after any page load, it holds
    the same ids in the same order. *)
Theorem selection_survives_expansion_and_loading (w : World) (events : list Event) :
  forallb isExpansionEvent events = true ->
  selectedVersionIds (component (run w events)) = selectedVersionIds (component w) /\
  (forall append page,
     selectedVersionIds (after (loadFlows append page (component (run w events)))) =
     selectedVersionIds (component w)).
Proof.
  intros H.
  assert (Hrun : selectedVersionIds (component (run w events)) =
                 selectedVersionIds (component w)).
  { revert w. induction events as [| ev events IH]; intros w; [reflexivity |].
    cbn in H. apply andb_true_iff in H as [Hev Hrest].
    cbn [run fold_left]. fold (run (step w ev) events).
    rewrite (IH Hrest). now apply step_expansion_selection. }
  split; [exact Hrun |].
  intros append page. rewrite <- Hrun. destruct append, page; reflexivity.
Qed.

(** ** The header checkbox of a flow *)

Lemma forallb_agree {A : Type} (p q : A -> bool) (l : list A) :
  (forall x, In x l -> p x = q x) -> forallb p l = forallb q l.
Proof.
  induction l as [| x l IH]; intros H; [reflexivity |].
  cbn. rewrite (H x) by now left. rewrite IH; [reflexivity |].
  intros y Hy. apply H. now right.
Qed.

Lemma checkAllInactiveSelected_ext (s s' : JsSet.t) (versions : list Version.t) :
  (forall v, In v versions -> Version.isActive v = false ->
             JsSet.has (Version.id v) s' = JsSet.has (Version.id v) s) ->
  checkAllInactiveSelected s' versions = checkAllInactiveSelected s versions.
Proof.
  intros H. unfold checkAllInactiveSelected. f_equal.
  apply forallb_agree. intros v Hv. apply filter_In in Hv as [Hv Hact].
  apply H; [assumption | now apply negb_true_iff].
Qed.

Lemma checkAllInactiveSelected_markInactive (s : JsSet.t) (isChecked : bool)
      (versions : list Version.t) :
  checkAllInactiveSelected s (markInactive isChecked versions) =
  checkAllInactiveSelected s versions.
Proof.
  unfold checkAllInactiveSelected, markInactive.
  assert (H : forall vs,
             map Version.id
                 (filter (fun v => negb (Version.isActive v))
                    (map (fun version =>
                            if negb (Version.isActive version)
                            then Version.set_isSelected isChecked version else version) vs)) =
             map Version.id (filter (fun v => negb (Version.isActive v)) vs)).
  { induction vs as [| v vs IH]; [reflexivity |].
    cbn. destruct (Version.isActive v) eqn:Hact; cbn; rewrite ?Hact; cbn; now rewrite IH. }
  assert (Hall : forall l : list Version.t,
             forallb (fun v => JsSet.has (Version.id v) s) l =
             forallb (fun x => JsSet.has x s) (map Version.id l)).
  { induction l as [| v l IH]; [reflexivity |]. cbn. now rewrite IH. }
  rewrite !Hall, H. f_equal.
  rewrite <- (length_map Version.id), H, length_map. reflexivity.
Qed.

Lemma checkAllInactiveSelected_spec (s : JsSet.t) (versions : list Version.t) :
  checkAllInactiveSelected s versions = true <->
  hasInactive versions = true /\
  forall v, In v versions -> Version.isActive v = false ->
            JsSet.has (Version.id v) s = true.
Proof.
  unfold checkAllInactiveSelected, hasInactive.
  rewrite andb_true_iff, forallb_forall, existsb_exists, Nat.ltb_lt. split.
  - intros [Hlen Hall]. split.
    + destruct (filter (fun v => negb (Version.isActive v)) versions) as [| v l] eqn:Hf;
        [cbn in Hlen; lia |].
      assert (Hv : In v (filter (fun v => negb (Version.isActive v)) versions))
        by (rewrite Hf; now left).
      apply filter_In in Hv. now exists v.
    + intros v Hv Hact. apply Hall, filter_In. split; [assumption |].
      now apply negb_true_iff.
  - intros [[v [Hv Hact]] Hall]. split.
    + assert (Hin : In v (filter (fun v => negb (Version.isActive v)) versions))
        by (apply filter_In; now split).
      destruct (filter (fun v => negb (Version.isActive v)) versions); [contradiction |].
      cbn. lia.
    + intros x Hx. apply filter_In in Hx as [Hx Hxact].
      apply Hall; [assumption | now apply negb_true_iff].
Qed.

Lemma targetIds_other (c : Component) (flowId : string) (flow : Flow.t) (v : Version.t) :
  versionIdsConsistent c = true ->
  In flow (flows c) -> In v (Flow.versions flow) ->
  (Flow.id flow =? flowId) && negb (Version.isActive v) = false ->
  existsb (String.eqb (Version.id v)) (targetIds flowId c) = false.
Proof.
  intros Hids Hflow Hv Hnot. apply not_true_iff_false. intros Hex.
  apply targetIds_spec in Hex as (g & w & Hg & Hgid & Hgloaded & Hw & Hwact & Hwid).
  destruct (versionIdsConsistent_spec c Hids flow v g w Hflow Hv Hg Hw (eq_sym Hwid))
    as [Hfg Hact].
  rewrite Hfg, Hgid, String.eqb_refl, Hact, Hwact in Hnot. discriminate.
Qed.

Lemma headersShown_handleVersionSelect (c : Component) (versionId : string)
      (isChecked : bool) :
  headersShown (after (handleVersionSelect versionId isChecked c)) = true.
Proof.
  unfold headersShown. rewrite handleVersionSelect_flows.
  generalize (selectedVersionIds (after (handleVersionSelect versionId isChecked c))) as s.
  intros s. rewrite map_map. apply forallb_forall. intros row Hrow.
  apply in_map_iff in Hrow as [flow [<- _]].
  unfold headerAgrees. cbn. destruct (Flow.versionsLoaded flow) eqn:Hloaded; cbn.
  - rewrite Hloaded. cbn. apply eqb_reflx.
  - now rewrite Hloaded.
Qed.

Lemma headersShown_handleSelectFlowInactive (c : Component) (flowId : string)
      (isChecked : bool) :
  versionIdsConsistent c = true ->
  (isChecked = true ->
   forallb (fun flow => negb (isTarget flowId flow) || hasInactive (Flow.versions flow))
           (flows c) = true) ->
  headersShown c = true ->
  headersShown (after (handleSelectFlowInactive flowId isChecked c)) = true.
Proof.
  intros Hids Hsome. unfold headersShown. rewrite handleSelectFlowInactive_run.
  cbn [after fst snd selectedVersionIds flows with_selectedVersionIds with_flows].
  apply forallb_map_impl. intros flow Hflow Hrow.
  unfold headerAgrees in *. unfold markFlow, isTarget.
  destruct (Flow.versionsLoaded flow) eqn:Hloaded;
    [| destruct (Flow.id flow =? flowId); cbn; now rewrite Hloaded].
  cbn [negb orb] in Hrow. apply eqb_prop in Hrow.
  destruct (Flow.id flow =? flowId) eqn:Hid; cbn [andb].
  - cbn. rewrite Hloaded. cbn. rewrite checkAllInactiveSelected_markInactive.
    assert (Hin : forall v, In v (Flow.versions flow) -> Version.isActive v = false ->
                            existsb (String.eqb (Version.id v)) (targetIds flowId c) = true).
    { intros v Hv Hact. apply targetIds_spec. exists flow, v.
      apply String.eqb_eq in Hid. repeat apply conj; auto. }
    destruct isChecked.
    + assert (Hhas : hasInactive (Flow.versions flow) = true).
      { specialize (Hsome eq_refl). rewrite forallb_forall in Hsome.
        specialize (Hsome flow Hflow). unfold isTarget in Hsome.
        now rewrite Hid, Hloaded in Hsome. }
      assert (Hall : checkAllInactiveSelected
                       (applyAll true (targetIds flowId c) (selectedVersionIds c))
                       (Flow.versions flow) = true).
      { apply checkAllInactiveSelected_spec. split; [assumption |].
        intros v Hv Hact. rewrite has_applyAll, (Hin v Hv Hact). apply orb_true_r. }
      now rewrite Hall.
    + assert (Hall : checkAllInactiveSelected
                       (applyAll false (targetIds flowId c) (selectedVersionIds c))
                       (Flow.versions flow) = false).
      { apply not_true_iff_false. intros Htrue.
        apply checkAllInactiveSelected_spec in Htrue as [Hhas Hall].
        unfold hasInactive in Hhas. apply existsb_exists in Hhas as [v [Hv Hact]].
        apply negb_true_iff in Hact. specialize (Hall v Hv Hact).
        rewrite has_applyAll, (Hin v Hv Hact) in Hall. cbn in Hall.
        rewrite andb_false_r in Hall. discriminate. }
      now rewrite Hall.
  - cbn. rewrite Hloaded. cbn. rewrite Hrow.
    rewrite (checkAllInactiveSelected_ext (selectedVersionIds c)
               (applyAll isChecked (targetIds flowId c) (selectedVersionIds c)));
      [apply eqb_reflx |].
    intros v Hv Hact. rewrite has_applyAll.
    rewrite (targetIds_other c flowId flow v Hids Hflow Hv) by now rewrite Hid.
    destruct isChecked; [apply orb_false_r | apply andb_true_r].
Qed.

(** The settlement of a version fetch, with the values it writes. *)
Lemma toggleFlowExpansion_resume_written (R : Flow.t -> Flow.t -> Prop)
      (fetch : VersionFetch) (outcome : Settled (list VersionDetail.t)) (c : Component) :
  (forall f, R f f) ->
  (forall f loading, R f (Flow.set_isLoadingVersions loading f)) ->
  (forall f versions,
     let rows := processVersionData (selectedVersionIds c) versions
                   (Flow.developerName (fetch_flow fetch))
                   (Flow.flowRecordId (fetch_flow fetch)) in
     R f (Flow.set_loaded rows (negb (hasInactive rows))
            (checkAllInactiveSelected (selectedVersionIds c) rows)
            (Z.of_nat (length rows)) (versionsText (Z.of_nat (length rows))) f)) ->
  Forall2 R (flows c) (flows (after (toggleFlowExpansion_resume fetch outcome c))).
Proof.
  intros Hsame Hloading Hloaded. unfold toggleFlowExpansion_resume.
  destruct outcome as [versions | e]; run_action; cbn [after fst snd flows with_flows];
    apply Forall2_mapFrom; intros f k;
    destruct (k =? fetch_flowIndex fetch)%nat; auto.
Qed.

Lemma loadFlows_rows (P : Flow.t -> bool) (append : bool) (page : Settled Page.t)
      (c : Component) :
  (forall data, forallb P (processFlowData data) = true) ->
  forallb P (flows c) = true ->
  forallb P (flows (after (loadFlows append page c))) = true.
Proof.
  intros Hnew H. destruct append, page as [response | e]; cbn; try assumption;
    try reflexivity.
  - now rewrite forallb_app, H, Hnew.
  - apply Hnew.
Qed.

(** X7: the header checkbox [allInactiveSelected] of every flow with loaded
    versions is what [checkAllInactiveSelected] gives for the current
    selection set: a single-version toggle establishes this for all flows,
    and the start of a toggle, a settled version fetch and a page load keep
    it.  Select-all-inactive keeps it when version ids identify versions and
    (when checking) the flow has an inactive version. *)
Theorem headersShown_invariant (c : Component) :
  (forall versionId isChecked,
     headersShown (after (handleVersionSelect versionId isChecked c)) = true) /\
  (headersShown c = true ->
   (forall flowId, headersShown (after (toggleFlowExpansion_start flowId c)) = true) /\
   (forall fetch outcome,
      headersShown (after (toggleFlowExpansion_resume fetch outcome c)) = true) /\
   (forall append page, headersShown (after (loadFlows append page c)) = true) /\
   (forall flowId isChecked,
      versionIdsConsistent c = true ->
      (isChecked = true ->
       forallb (fun flow => negb (isTarget flowId flow) || hasInactive (Flow.versions flow))
               (flows c) = true) ->
      headersShown (after (handleSelectFlowInactive flowId isChecked c)) = true)).
Proof.
  split; [intros; apply headersShown_handleVersionSelect |].
  intros H. repeat apply conj.
  - intros flowId. unfold headersShown.
    destruct (toggleFlowExpansion_start_rows
                (fun f f' => headerAgrees (selectedVersionIds c) f = true ->
                             headerAgrees (selectedVersionIds c) f' = true) flowId c)
      as [Hrows ->]; auto.
    revert H. now apply Forall2_forallb.
  - intros fetch outcome. unfold headersShown.
    destruct (toggleFlowExpansion_resume_rows (fun _ _ => True) fetch outcome c)
      as [_ ->]; auto.
    revert H. apply Forall2_forallb.
    apply toggleFlowExpansion_resume_written; auto.
    intros f versions rows _. unfold headerAgrees. cbn. apply eqb_reflx.
  - intros append page. unfold headersShown.
    replace (selectedVersionIds (after (loadFlows append page c)))
      with (selectedVersionIds c) by (destruct append, page; reflexivity).
    apply loadFlows_rows; [| exact H].
    intros data. induction data as [| d data IH]; [reflexivity | exact IH].
  - intros flowId isChecked Hids Hsome.
    now apply headersShown_handleSelectFlowInactive.
Qed.

(** ** Opening the confirmation and submitting *)

(** X8: the delete button is disabled exactly when no id is selected, its
    label shows the number of selected ids, a click on it opens the
    confirmation modal exactly when an id is selected (and never closes it),
    and cancelling closes the modal; neither changes the selection set or the
    flows. *)
Theorem delete_modal_opens_for_nonempty_selection (c : Component) :
  (deleteDisabled c = true <-> selectedVersionIds c = []) /\
  deleteButtonLabel c =
    "Delete (" +++ showNumber (Z.of_nat (length (selectedVersionIds c))) +++ ")" /\
  handleDeleteClick c =
    (Normal tt, (if deleteDisabled c then c else with_showDeleteModal true c), []) /\
  handleCancelDelete c = (Normal tt, with_showDeleteModal false c, []) /\
  selectedVersionIds (after (handleDeleteClick c)) = selectedVersionIds c /\
  flows (after (handleDeleteClick c)) = flows c.
Proof.
  assert (Hcount : selectedCount c = Z.of_nat (length (selectedVersionIds c))) by reflexivity.
  assert (Hclick : handleDeleteClick c =
                   (Normal tt, (if deleteDisabled c then c else with_showDeleteModal true c),
                    [])).
  { unfold handleDeleteClick, deleteDisabled. run_action. rewrite Hcount.
    destruct (selectedVersionIds c) as [| x s]; [reflexivity |].
    cbn [length]. rewrite Nat2Z.inj_succ.
    destruct (Z.ltb_spec 0 (Z.succ (Z.of_nat (length s)))) as [_ | Hle]; [| lia].
    destruct (Z.eqb_spec (Z.succ (Z.of_nat (length s))) 0) as [Heq | _]; [lia |].
    reflexivity. }
  refine (conj _ (conj eq_refl (conj Hclick (conj eq_refl _)))).
  - unfold deleteDisabled. rewrite Hcount, Z.eqb_eq. split.
    + intros H. apply length_zero_iff_nil. lia.
    + now intros ->.
  - rewrite Hclick. now destruct (deleteDisabled c).
Qed.

Lemma deleteRequests_app (t1 t2 : list Effect) :
  deleteRequests (t1 ++ t2) = deleteRequests t1 ++ deleteRequests t2.
Proof. apply flat_map_app. Qed.

Lemma deleteRequests_failures (l : list DeletionResult) :
  deleteRequests (map (fun r => ConsoleError (failureLine r)) l) = [].
Proof. induction l as [| r l IH]; [reflexivity | exact IH]. Qed.

Lemma loadFlows_other_effects (append : bool) (page : Settled Page.t) (c : Component) :
  deleteRequests (effects (loadFlows append page c)) = [] /\
  toastsOf "warning" (effects (loadFlows append page c)) = [] /\
  toastsOf "success" (effects (loadFlows append page c)) = [].
Proof. destruct append, page; repeat apply conj; reflexivity. Qed.

Lemma handleConfirmDelete_one_request (c : Component)
      (deletion : Settled (Nullable DeleteResponse)) (reload : Settled Page.t) :
  deleteRequests (effects (handleConfirmDelete deletion reload c)) =
  [selectedVersionIds c].
Proof.
  destruct (deleteFailure deletion) as [e |] eqn:H.
  - rewrite (handleConfirmDelete_failed _ _ _ _ H).
    destruct deletion as [[| | result] | e']; reflexivity.
  - destruct deletion as [[| | result] | e']; try discriminate.
    rewrite (handleConfirmDelete_answered _ _ _ H).
    destruct (loadFlows_other_effects false reload (cleared result c)) as (Hreq & _ & _).
    cbn [effects snd].
    change (deleteRequests
              ([CallDeleteFlowVersions (selectedVersionIds c) (sessionId c)]
               ++ (if isZero (failureCount result)
                   then [ShowToast "Success"
                           ("Successfully deleted " +++ showCount (successCount result)
                            +++ " flow version(s).") "success" false]
                   else ShowToast "Warning"
                          ("Deleted " +++ showCount (successCount result)
                           +++ " version(s). Failed to delete "
                           +++ showCount (failureCount result) +++ " version(s).")
                          "warning" false
                        :: match results result with
                           | JsValue entries =>
                               map (fun r => ConsoleError (failureLine r))
                                   (filter (fun r => negb (success r)) entries)
                           | _ => []
                           end)
               ++ effects (loadFlows false reload (cleared result c))) =
            [selectedVersionIds c]).
    rewrite !deleteRequests_app, Hreq, app_nil_r.
    destruct (isZero (failureCount result)); [reflexivity |].
    destruct (results result) as [| | entries]; try reflexivity.
    change (deleteRequests
              (ShowToast "Warning"
                 ("Deleted " +++ showCount (successCount result)
                  +++ " version(s). Failed to delete "
                  +++ showCount (failureCount result) +++ " version(s).")
                 "warning" false
               :: map (fun r => ConsoleError (failureLine r))
                      (filter (fun r => negb (success r)) entries)))
      with (deleteRequests
              (map (fun r => ConsoleError (failureLine r))
                   (filter (fun r => negb (success r)) entries))).
    now rewrite deleteRequests_failures.
Qed.

(** X9: whatever the delete call and the reload answer, [handleConfirmDelete]
    ends normally with the deleting flag and the modal reset, has recorded
    the number of selected ids as [totalToDelete], and has sent exactly one
    delete request, carrying the selection set as it was and the session
    id; afterwards the selection set is as it was when the request failed as
    a whole, and empty otherwise. *)
Theorem handleConfirmDelete_settles (c : Component)
        (deletion : Settled (Nullable DeleteResponse)) (reload : Settled Page.t) :
  let out := handleConfirmDelete deletion reload c in
  completion out = Normal tt /\
  isDeleting (after out) = false /\
  showDeleteModal (after out) = false /\
  totalToDelete (after out) = selectedCount c /\
  deleteRequests (effects out) = [selectedVersionIds c] /\
  hd_error (effects out) = Some (CallDeleteFlowVersions (selectedVersionIds c) (sessionId c)) /\
  selectedVersionIds (after out) =
    match deleteFailure deletion with
    | Some _ => selectedVersionIds c
    | None => JsSet.empty
    end.
Proof.
  intros out.
  assert (Hreq : deleteRequests (effects out) = [selectedVersionIds c])
    by apply handleConfirmDelete_one_request.
  unfold out in *. destruct (deleteFailure deletion) as [e |] eqn:H.
  - rewrite (handleConfirmDelete_failed _ _ _ _ H) in *.
    destruct deletion as [[| | result] | e']; repeat apply conj; reflexivity.
  - destruct deletion as [[| | result] | e']; try discriminate.
    rewrite (handleConfirmDelete_answered _ _ _ H) in *.
    cbn [completion after effects fst snd] in *.
    repeat apply conj; try reflexivity; try exact Hreq; destruct reload; reflexivity.
Qed.

(** X10: when the delete response reports a failure count of 0, one success
    toast names the success count, no warning toast and no console line is
    written, the deleted count and the progress are set, the selection set is
    emptied, the list is loaded again from offset 0 and afterwards the delete
    button is disabled. *)
Theorem handleConfirmDelete_full_success (c : Component) (result : DeleteResponse)
        (reload : Settled Page.t) :
  failureCount result = JsValue 0%Z ->
  let out := handleConfirmDelete (Fulfilled (JsValue result)) reload c in
  toastsOf "success" (effects out) =
    [ShowToast "Success"
       ("Successfully deleted " +++ showCount (successCount result) +++ " flow version(s).")
       "success" false] /\
  toastsOf "warning" (effects out) = [] /\
  consoleLines (effects out) = [] /\
  filter isListRequest (effects out) = [CallGetFlowDefinitions 0%Z] /\
  deletedCount (after out) = successCount result /\
  deletionProgress (after out) = 100%Z /\
  selectedVersionIds (after out) = JsSet.empty /\
  deleteDisabled (after out) = true /\
  flows (after out) =
    match reload with
    | Fulfilled response => processFlowData (Page.flows response)
    | Rejected _ => []
    end.
Proof.
  intros Hzero out.
  assert (Hnone : deleteFailure (Fulfilled (JsValue result)) = None).
  { cbn. now rewrite Hzero. }
  unfold out. rewrite (handleConfirmDelete_answered _ _ _ Hnone), Hzero.
  destruct reload as [response | e]; repeat apply conj; reflexivity.
Qed.

(** ** Distinct ids *)

Lemma applyAll_NoDup (isChecked : bool) (ids : list string) (s : JsSet.t) :
  NoDup s -> NoDup (applyAll isChecked ids s).
Proof.
  revert s. induction ids as [| x ids IH]; intros s H; [assumption |].
  unfold applyAll. cbn [fold_left]. apply IH.
  destruct isChecked; [now apply add_NoDup | now apply delete_NoDup].
Qed.

Lemma step_NoDup (w : World) (ev : Event) :
  NoDup (selectedVersionIds (component w)) ->
  NoDup (selectedVersionIds (component (step w ev))).
Proof.
  intros H.
  destruct ev as [flowId | k outcome | versionId isChecked | flowId isChecked].
  - now rewrite step_expansion_selection.
  - now rewrite step_expansion_selection.
  - cbn [step component]. rewrite handleVersionSelect_selected.
    destruct isChecked; [now apply add_NoDup | now apply delete_NoDup].
  - cbn [step component]. rewrite handleSelectFlowInactive_run.
    cbn [after fst snd selectedVersionIds with_selectedVersionIds].
    now apply applyAll_NoDup.
Qed.

(** X11: the selection set never holds an id twice: starting from a set of
    distinct ids, any sequence of toggles, settlements, single selections and
    select-all-inactive operations leaves the ids distinct, so the selected
    count counts ids and a delete request names each selected version
    once. *)
Theorem selection_ids_stay_distinct (w : World) (events : list Event)
        (deletion : Settled (Nullable DeleteResponse)) (reload : Settled Page.t) :
  NoDup (selectedVersionIds (component w)) ->
  let c := component (run w events) in
  NoDup (selectedVersionIds c) /\
  exists ids,
    deleteRequests (effects (handleConfirmDelete deletion reload c)) = [ids] /\
    NoDup ids /\
    selectedCount c = Z.of_nat (length ids).
Proof.
  intros H c.
  assert (Hrun : NoDup (selectedVersionIds c)).
  { unfold c. clear c. revert w H. induction events as [| ev events IH]; intros w H;
      [assumption |].
    cbn [run fold_left]. apply IH. now apply step_NoDup. }
  split; [exact Hrun |]. exists (selectedVersionIds c).
  repeat apply conj; [apply handleConfirmDelete_one_request | exact Hrun | reflexivity].
Qed.

(** ** The three filters *)

Lemma In_filter_if {A : Type} (b : bool) (p : A -> bool) (l : list A) (x : A) :
  In x (if b then filter p l else l) <-> In x l /\ (b = false \/ p x = true).
Proof.
  destruct b.
  - rewrite filter_In. split.
    + intros [H1 H2]. split; [assumption | now right].
    + intros [H1 [H2 | H2]]; [discriminate | now split].
  - split; [intros H; split; [assumption | now left] | now intros [H _]].
Qed.

Lemma negb_eqb_empty (s : string) : negb (s =? "") = false <-> s = "".
Proof. rewrite negb_false_iff. apply String.eqb_eq. Qed.

Lemma filteredFlows_In (c : Component) (flow : Flow.t) :
  In flow (filteredFlows c) <->
  In flow (flows c) /\
  (searchTerm c = "" \/ matchesTerm (toLowerCase (searchTerm c)) flow = true) /\
  (filterType c = "" \/ Flow.processType flow = filterType c) /\
  (filterStatus c = "" \/ Flow.isActive flow = (filterStatus c =? "Active")).
Proof.
  unfold filteredFlows. cbv zeta.
  rewrite In_filter_if, In_filter_if, In_filter_if.
  rewrite !negb_eqb_empty.
  fold (matchesTerm (toLowerCase (searchTerm c)) flow).
  rewrite String.eqb_eq.
  assert (Hstatus : Bool.eqb (Flow.isActive flow) (filterStatus c =? "Active") = true <->
                    Flow.isActive flow = (filterStatus c =? "Active")).
  { split; [apply eqb_prop | intros ->; apply eqb_reflx]. }
  rewrite Hstatus. split.
  - intros [[[H1 H2] H3] H4]. repeat apply conj; assumption.
  - intros (H1 & H2 & H3 & H4). repeat apply conj; assumption.
Qed.

(** X12: a flow is shown in the filtered list exactly when it is loaded and
    passes each filter that is set: its lower-cased developer name, or its
    non-empty lower-cased label, contains the lower-cased search term; its
    process type equals the type filter; its active flag is true for the
    status value "Active" and false for any other status value.  With no
    filter set the filtered list is the flow list, and the filter inputs
    change nothing but their own field. *)
Theorem filteredFlows_membership (c : Component) (flow : Flow.t) :
  (In flow (filteredFlows c) <->
   In flow (flows c) /\
   (searchTerm c = "" \/
    includes (toLowerCase (Flow.developerName flow)) (toLowerCase (searchTerm c)) = true \/
    exists l, Flow.label flow = JsValue l /\ l <> "" /\
              includes (toLowerCase l) (toLowerCase (searchTerm c)) = true) /\
   (filterType c = "" \/ Flow.processType flow = filterType c) /\
   (filterStatus c = "" \/ Flow.isActive flow = (filterStatus c =? "Active"))) /\
  (searchTerm c = "" -> filterType c = "" -> filterStatus c = "" ->
   filteredFlows c = flows c) /\
  (forall value,
     flows (after (handleSearchChange value c)) = flows c /\
     flows (after (handleFilterTypeChange value c)) = flows c /\
     flows (after (handleFilterStatusChange value c)) = flows c /\
     searchTerm (after (handleSearchChange value c)) = value /\
     filterType (after (handleFilterTypeChange value c)) = value /\
     filterStatus (after (handleFilterStatusChange value c)) = value /\
     handleSearchChange value c =
       (Normal tt,
        mkComponent (sessionId c) (flows c) (selectedVersionIds c) (isLoading c)
          (accessDenied c) value (filterType c) (filterStatus c) (hasMoreFlows c)
          (currentOffset c) (isLoadingMore c) (showDeleteModal c) (isDeleting c)
          (deletionProgress c) (deletedCount c) (totalToDelete c),
        []) /\
     handleFilterTypeChange value c =
       (Normal tt,
        mkComponent (sessionId c) (flows c) (selectedVersionIds c) (isLoading c)
          (accessDenied c) (searchTerm c) value (filterStatus c) (hasMoreFlows c)
          (currentOffset c) (isLoadingMore c) (showDeleteModal c) (isDeleting c)
          (deletionProgress c) (deletedCount c) (totalToDelete c),
        []) /\
     handleFilterStatusChange value c =
       (Normal tt,
        mkComponent (sessionId c) (flows c) (selectedVersionIds c) (isLoading c)
          (accessDenied c) (searchTerm c) (filterType c) value (hasMoreFlows c)
          (currentOffset c) (isLoadingMore c) (showDeleteModal c) (isDeleting c)
          (deletionProgress c) (deletedCount c) (totalToDelete c),
        [])).
Proof.
  assert (Hterm : forall term,
             matchesTerm term flow = true <->
             includes (toLowerCase (Flow.developerName flow)) term = true \/
             exists l, Flow.label flow = JsValue l /\ l <> "" /\
                       includes (toLowerCase l) term = true).
  { intros term. unfold matchesTerm. rewrite orb_true_iff. split.
    - intros [H | H]; [now left | right].
      destruct (Flow.label flow) as [| | l]; try discriminate.
      apply andb_true_iff in H as [Hne Hin]. exists l.
      apply negb_true_iff, String.eqb_neq in Hne. now repeat split.
    - intros [H | (l & -> & Hne & Hin)]; [now left | right].
      apply String.eqb_neq in Hne. now rewrite Hne, Hin. }
  refine (conj _ (conj _ _)).
  - rewrite filteredFlows_In, Hterm. apply iff_refl.
  - intros H1 H2 H3. unfold filteredFlows. now rewrite H1, H2, H3.
  - intros value. repeat apply conj; reflexivity.
Qed.

(** ** The type combobox *)

Lemma collectTypes_In (l : list Flow.t) (acc : JsSet.t) (t : string) :
  In t (fold_left (fun acc flow =>
                     if negb (Flow.processType flow =? "")
                     then JsSet.add (Flow.processType flow) acc else acc) l acc) <->
  In t acc \/ exists flow, In flow l /\ Flow.processType flow = t /\ t <> "".
Proof.
  revert acc. induction l as [| f l IH]; intros acc.
  - cbn. split; [now left | intros [H | (flow & [] & _)]; assumption].
  - cbn [fold_left]. rewrite IH. split.
    + intros [H | (flow & Hflow & Ht & Hne)].
      * destruct (String.eqb_spec (Flow.processType f) "") as [He | Hne]; cbn in H;
          [now left |].
        apply has_In in H. rewrite has_add in H. apply orb_true_iff in H as [H | H].
        -- apply String.eqb_eq in H. subst t. right. exists f.
           repeat split; [now left | assumption].
        -- left. now apply has_In.
      * right. exists flow. repeat split; [now right | assumption | assumption].
    + intros [H | (flow & [<- | Hflow] & Ht & Hne)].
      * left. destruct (negb (Flow.processType f =? "")); [| assumption].
        apply has_In. rewrite has_add. apply has_In in H. rewrite H. apply orb_true_r.
      * left. subst t. apply String.eqb_neq in Hne. rewrite Hne. cbn.
        apply has_In. rewrite has_add, String.eqb_refl. reflexivity.
      * right. exists flow. now repeat split.
Qed.

Lemma collectTypes_NoDup (l : list Flow.t) (acc : JsSet.t) :
  NoDup acc ->
  NoDup (fold_left (fun acc flow =>
                      if negb (Flow.processType flow =? "")
                      then JsSet.add (Flow.processType flow) acc else acc) l acc).
Proof.
  revert acc. induction l as [| f l IH]; intros acc H; [assumption |].
  cbn [fold_left]. apply IH.
  destruct (negb (Flow.processType f =? "")); [now apply add_NoDup | assumption].
Qed.

(** X13: the type combobox offers "All Types" with the empty value first and
    then each non-empty process type of the loaded flows exactly once,
    labelled by the label table or by the type itself; choosing an offered
    type as the only filter shows at least one flow. *)
Theorem processTypeOptions_offer_loaded_types (c : Component) :
  hd_error (processTypeOptions c) =
    Some {| option_label := "All Types"; option_value := "" |} /\
  NoDup (map option_value (processTypeOptions c)) /\
  (forall t, t <> "" ->
     (In t (map option_value (processTypeOptions c)) <->
      exists flow, In flow (flows c) /\ Flow.processType flow = t)) /\
  (forall o, In o (processTypeOptions c) -> option_value o <> "" ->
     option_label o = processTypeLabelOf (option_value o) /\
     filteredFlows
       (with_filterStatus "" (with_searchTerm "" (with_filterType (option_value o) c))) <> []).
Proof.
  unfold processTypeOptions. cbv zeta.
  set (types := fold_left _ (flows c) JsSet.empty).
  assert (Htypes : forall t, In t types <->
                             exists flow, In flow (flows c) /\ Flow.processType flow = t /\ t <> "").
  { intros t. unfold types. rewrite collectTypes_In. split.
    - intros [[] | H]. exact H.
    - intros H. now right. }
  assert (Hvalues : map option_value
                      (map (fun type => {| option_label := processTypeLabelOf type;
                                           option_value := type |}) types) = types).
  { rewrite map_map. cbn. apply map_id. }
  repeat apply conj.
  - reflexivity.
  - cbn [map option_value]. rewrite Hvalues. constructor.
    + intros H. apply Htypes in H as (flow & _ & _ & Hne). now apply Hne.
    + apply collectTypes_NoDup. constructor.
  - intros t Hne. cbn [map option_value]. rewrite Hvalues. split.
    + intros [H | H]; [now destruct Hne |].
      apply Htypes in H as (flow & Hflow & Ht & _). now exists flow.
    + intros (flow & Hflow & Ht). right. apply Htypes. now exists flow.
  - intros o [<- | H] Hvalue; [now destruct Hvalue |].
    apply in_map_iff in H as [t [<- Ht]]. split; [reflexivity |]. cbn [option_value].
    apply Htypes in Ht as (flow & Hflow & Htype & Hne).
    intros Hnil.
    assert (Hin : In flow (filteredFlows
                             (with_filterStatus "" (with_searchTerm "" (with_filterType t c))))).
    { apply filteredFlows_In. cbn. repeat apply conj;
        [assumption | now left | now right | now left]. }
    rewrite Hnil in Hin. contradiction.
Qed.

(** ** Reloading and loading more *)

Lemma processFlowData_fresh (data : list FlowSummary.t) (flow : Flow.t) :
  In flow (processFlowData data) ->
  Flow.isExpanded flow = false /\ Flow.isLoadingVersions flow = false /\
  Flow.versionsLoaded flow = false /\ Flow.versions flow = [] /\
  Flow.allInactiveSelected flow = false /\ Flow.hasNoInactive flow = true /\
  Flow.expandIcon flow = "utility:chevronright".
Proof.
  unfold processFlowData. intros H. apply in_map_iff in H as [d [<- _]].
  repeat apply conj; reflexivity.
Qed.

(** X14: after a first load or reload, whatever its outcome, every row of
    the flow list is collapsed, is not marked loaded and holds no versions,
    whatever had been loaded before; so expanding any listed flow then sends
    a version request for it. *)
Theorem reload_discards_version_state (c : Component) (page : Settled Page.t) :
  let c' := after (loadFlows false page c) in
  (forall flow, In flow (flows c') ->
     Flow.isExpanded flow = false /\ Flow.versionsLoaded flow = false /\
     Flow.versions flow = []) /\
  (forall flowId, versionsLoadedFor flowId c' = false) /\
  (forall flow, In flow (flows c') ->
     exists activeVersionId,
       effects (toggleFlowExpansion_start (Flow.id flow) c') =
       [CallGetFlowVersions (Flow.id flow) activeVersionId]).
Proof.
  intros c'.
  assert (Hfresh : forall flow, In flow (flows c') ->
                     Flow.isExpanded flow = false /\ Flow.versionsLoaded flow = false /\
                     Flow.versions flow = []).
  { unfold c'. destruct page as [response | e]; cbn; [| contradiction].
    intros flow H. apply processFlowData_fresh in H as (H1 & _ & H2 & H3 & _).
    now repeat split. }
  split; [exact Hfresh |]. split.
  - intros flowId. unfold versionsLoadedFor.
    destruct (findIndex (fun f => Flow.id f =? flowId) (flows c')) as [i |]; [| reflexivity].
    destruct (nth_error (flows c') i) as [flow |] eqn:Hnth; [| reflexivity].
    apply nth_error_In in Hnth. now destruct (Hfresh flow Hnth) as (_ & H & _).
  - intros flow Hflow.
    destruct (findIndex_exists (fun f => Flow.id f =? Flow.id flow) (flows c') flow Hflow
                (String.eqb_refl _)) as [i Hfind].
    destruct (findIndex_found _ _ _ Hfind) as [first [Hnth _]].
    rewrite (toggleFlowExpansion_start_found _ _ _ _ Hfind Hnth).
    destruct (Hfresh first (nth_error_In _ _ Hnth)) as (Hexp & Hloaded & _).
    rewrite Hexp, Hloaded. cbn. now exists (Flow.activeVersionId first).
Qed.

Lemma findIndex_app_left {A : Type} (p : A -> bool) (l l' : list A) (i : nat) :
  findIndex p l = Some i -> findIndex p (l ++ l') = Some i.
Proof.
  revert i. induction l as [| x l IH]; intros i H; [discriminate |].
  cbn in *. destruct (p x); [assumption |].
  destruct (findIndex p l) as [k |]; [| discriminate].
  now rewrite (IH k eq_refl).
Qed.

(** X15: loading more flows, whether it succeeds or fails, keeps the rows
    that were there in place and unchanged, so a flow whose versions were
    loaded stays loaded and expanding it again sends no request. *)
Theorem loadMore_keeps_loaded_versions (c : Component) (page : Settled Page.t)
        (flowId : string) :
  versionsLoadedFor flowId c = true ->
  let c' := after (loadFlows true page c) in
  firstn (length (flows c)) (flows c') = flows c /\
  versionsLoadedFor flowId c' = true /\
  effects (toggleFlowExpansion_start flowId c') = [].
Proof.
  intros H c'.
  assert (Hflows : exists more, flows c' = flows c ++ more).
  { unfold c'. destruct page as [response | e].
    - now exists (processFlowData (Page.flows response)).
    - exists []. cbn. now rewrite app_nil_r. }
  destruct Hflows as [more Hflows].
  assert (Hloaded : versionsLoadedFor flowId c' = true).
  { unfold versionsLoadedFor in *. rewrite Hflows.
    destruct (findIndex (fun f => Flow.id f =? flowId) (flows c)) as [i |] eqn:Hfind;
      [| discriminate].
    rewrite (findIndex_app_left _ _ more _ Hfind).
    destruct (nth_error (flows c) i) as [flow |] eqn:Hnth; [| discriminate].
    rewrite nth_error_app1 by (apply nth_error_Some; congruence).
    now rewrite Hnth. }
  repeat apply conj.
  - rewrite Hflows. rewrite firstn_app, firstn_all, Nat.sub_diag. cbn. apply app_nil_r.
  - exact Hloaded.
  - now apply toggleFlowExpansion_start_loaded.
Qed.

(** ** Settlements of different flows *)

Lemma mapFrom_mapFrom {A B C : Type} (g : B -> nat -> C) (h : A -> nat -> B)
      (l : list A) (i : nat) :
  mapFrom i g (mapFrom i h l) = mapFrom i (fun x k => g (h x k) k) l.
Proof.
  revert i. induction l as [| x l IH]; intros i; [reflexivity |]. cbn. now rewrite IH.
Qed.

Lemma mapFrom_ext {A B : Type} (g h : A -> nat -> B) (l : list A) (i : nat) :
  (forall x k, g x k = h x k) -> mapFrom i g l = mapFrom i h l.
Proof.
  intros H. revert i. induction l as [| x l IH]; intros i; [reflexivity |].
  cbn. now rewrite H, IH.
Qed.

Lemma with_flows_twice (l l' : list Flow.t) (c : Component) :
  with_flows l (with_flows l' c) = with_flows l c.
Proof. reflexivity. Qed.

Lemma toggleFlowExpansion_resume_after (fetch : VersionFetch)
      (outcome : Settled (list VersionDetail.t)) (c : Component) :
  after (toggleFlowExpansion_resume fetch outcome c) =
  with_flows
    (mapi (fun f idx =>
             if (idx =? fetch_flowIndex fetch)%nat then
               match outcome with
               | Fulfilled versions =>
                   let rows := processVersionData (selectedVersionIds c) versions
                                 (Flow.developerName (fetch_flow fetch))
                                 (Flow.flowRecordId (fetch_flow fetch)) in
                   Flow.set_loaded rows (negb (hasInactive rows))
                     (checkAllInactiveSelected (selectedVersionIds c) rows)
                     (Z.of_nat (length rows)) (versionsText (Z.of_nat (length rows))) f
               | Rejected _ => Flow.set_isLoadingVersions false f
               end
             else f) (flows c)) c.
Proof. destruct outcome; reflexivity. Qed.

(** X16: the settlements of two version fetches that were started for rows
    at different positions commute: applied in either order they leave the
    same component, each having written only to its own row. *)
Theorem settlements_of_different_rows_commute (c : Component) (fetch1 fetch2 : VersionFetch)
        (outcome1 outcome2 : Settled (list VersionDetail.t)) :
  fetch_flowIndex fetch1 <> fetch_flowIndex fetch2 ->
  after (toggleFlowExpansion_resume fetch1 outcome1
           (after (toggleFlowExpansion_resume fetch2 outcome2 c))) =
  after (toggleFlowExpansion_resume fetch2 outcome2
           (after (toggleFlowExpansion_resume fetch1 outcome1 c))) /\
  (forall j, j <> fetch_flowIndex fetch1 ->
     nth_error (flows (after (toggleFlowExpansion_resume fetch1 outcome1 c))) j =
     nth_error (flows c) j).
Proof.
  intros Hneq. split.
  - rewrite !toggleFlowExpansion_resume_after.
    cbn [flows with_flows selectedVersionIds].
    rewrite !with_flows_twice. f_equal.
    unfold mapi. rewrite !mapFrom_mapFrom. apply mapFrom_ext. intros f k.
    destruct (Nat.eqb_spec k (fetch_flowIndex fetch1)) as [H1 | H1];
      destruct (Nat.eqb_spec k (fetch_flowIndex fetch2)) as [H2 | H2];
      try reflexivity.
    congruence.
  - intros j Hj. rewrite toggleFlowExpansion_resume_after. cbn [flows with_flows].
    rewrite nth_error_mapi. destruct (nth_error (flows c) j) as [f |]; [| reflexivity].
    cbn. apply Nat.eqb_neq in Hj. now rewrite Hj.
Qed.

(** ** Composing select-all-inactive *)

Lemma inactiveIds_markInactive (isChecked : bool) (versions : list Version.t) :
  inactiveIds (markInactive isChecked versions) = inactiveIds versions.
Proof.
  unfold inactiveIds, markInactive. induction versions as [| v vs IH]; [reflexivity |].
  cbn. destruct (Version.isActive v) eqn:Hact; cbn; rewrite ?Hact; cbn; now rewrite IH.
Qed.

Lemma targetIds_handleSelectFlowInactive (flowId : string) (isChecked : bool)
      (c : Component) :
  targetIds flowId (after (handleSelectFlowInactive flowId isChecked c)) =
  targetIds flowId c.
Proof.
  rewrite handleSelectFlowInactive_run. unfold targetIds.
  cbn [after fst snd flows with_selectedVersionIds with_flows].
  induction (flows c) as [| f l IH]; [reflexivity |].
  cbn [map flat_map]. rewrite IH. f_equal.
  unfold markFlow. destruct (isTarget flowId f) eqn:Ht; [| now rewrite Ht].
  unfold isTarget in *. cbn. rewrite Ht. apply inactiveIds_markInactive.
Qed.

Lemma applyAll_present (ids : list string) (s : JsSet.t) :
  (forall x, In x ids -> JsSet.has x s = true) -> applyAll true ids s = s.
Proof.
  induction ids as [| x ids IH]; intros H; [reflexivity |].
  unfold applyAll in *. cbn [fold_left].
  assert (Hx : JsSet.add x s = s) by (unfold JsSet.add; rewrite H; [reflexivity | now left]).
  rewrite Hx. apply IH. intros y Hy. apply H. now right.
Qed.

(** X17: select-all-inactive with the box checked is idempotent on the
    selection set, and checking and then unchecking the box leaves selected
    exactly the ids that unchecking alone would leave: no id of an inactive
    version of the flow stays selected, also not one that had been selected
    by itself before. *)
Theorem handleSelectFlowInactive_composes (c : Component) (flowId : string) :
  let checked := after (handleSelectFlowInactive flowId true c) in
  selectedVersionIds (after (handleSelectFlowInactive flowId true checked)) =
    selectedVersionIds checked /\
  (forall x,
     JsSet.has x (selectedVersionIds (after (handleSelectFlowInactive flowId false checked))) =
     JsSet.has x (selectedVersionIds (after (handleSelectFlowInactive flowId false c)))) /\
  (forall x,
     In x (targetIds flowId c) ->
     JsSet.has x (selectedVersionIds checked) = true /\
     JsSet.has x (selectedVersionIds
                    (after (handleSelectFlowInactive flowId false checked))) = false).
Proof.
  intros checked.
  assert (Hids : targetIds flowId checked = targetIds flowId c)
    by apply targetIds_handleSelectFlowInactive.
  assert (Hsel : selectedVersionIds checked =
                 applyAll true (targetIds flowId c) (selectedVersionIds c)).
  { unfold checked. now rewrite handleSelectFlowInactive_run. }
  assert (Hin : forall x, In x (targetIds flowId c) ->
                          existsb (String.eqb x) (targetIds flowId c) = true).
  { intros x Hx. apply existsb_exists. exists x. split; [assumption | apply String.eqb_refl]. }
  repeat apply conj.
  - rewrite (handleSelectFlowInactive_run flowId true checked).
    cbn [after fst snd selectedVersionIds with_selectedVersionIds].
    rewrite Hids. apply applyAll_present. intros x Hx.
    rewrite Hsel, has_applyAll, (Hin x Hx). apply orb_true_r.
  - intros x. rewrite (handleSelectFlowInactive_run flowId false checked).
    rewrite (handleSelectFlowInactive_run flowId false c).
    cbn [after fst snd selectedVersionIds with_selectedVersionIds].
    rewrite Hids, Hsel, !has_applyAll.
    destruct (JsSet.has x (selectedVersionIds c)),
      (existsb (String.eqb x) (targetIds flowId c)); reflexivity.
  - intros x Hx. split.
    + rewrite Hsel, has_applyAll, (Hin x Hx). apply orb_true_r.
    + rewrite (handleSelectFlowInactive_run flowId false checked).
      cbn [after fst snd selectedVersionIds with_selectedVersionIds].
      rewrite Hids, has_applyAll, (Hin x Hx). apply andb_false_r.
Qed.

(** ** Version counts *)

Lemma countsShown_rows (c : Component) (l' : list Flow.t) :
  Forall2 (fun f f' => countAgrees f = true -> countAgrees f' = true) (flows c) l' ->
  countsShown c = true -> forallb countAgrees l' = true.
Proof. intros H. now apply Forall2_forallb. Qed.

(** X18: for every flow whose versions are loaded, [versionCount] is the
    number of version rows the flow holds: this is so initially and after a
    page load, and the start of a toggle, a settled version fetch, a
    single-version toggle and select-all-inactive keep it. *)
Theorem countsShown_invariant (c : Component) :
  (forall session, countsShown (initial session) = true) /\
  (countsShown c = true ->
   (forall append page, countsShown (after (loadFlows append page c)) = true) /\
   (forall flowId, countsShown (after (toggleFlowExpansion_start flowId c)) = true) /\
   (forall fetch outcome,
      countsShown (after (toggleFlowExpansion_resume fetch outcome c)) = true) /\
   (forall versionId isChecked,
      countsShown (after (handleVersionSelect versionId isChecked c)) = true) /\
   (forall flowId isChecked,
      countsShown (after (handleSelectFlowInactive flowId isChecked c)) = true)).
Proof.
  split; [reflexivity |]. intros H. repeat apply conj.
  - intros append page. apply loadFlows_rows; [| exact H].
    intros data. induction data as [| d data IH]; [reflexivity | exact IH].
  - intros flowId. revert H. apply Forall2_forallb.
    now apply toggleFlowExpansion_start_rows.
  - intros fetch outcome. revert H. apply Forall2_forallb.
    apply toggleFlowExpansion_resume_written; auto.
    intros f versions rows _. unfold countAgrees. cbn. apply Z.eqb_refl.
  - intros versionId isChecked. unfold countsShown.
    rewrite handleVersionSelect_flows, map_map. revert H. apply forallb_map_impl.
    intros f _ Hf. unfold countAgrees in *. cbn.
    destruct (Flow.versionsLoaded f) eqn:Hloaded; cbn in *; rewrite Hloaded; cbn;
      [| reflexivity].
    now rewrite length_map.
  - intros flowId isChecked. unfold countsShown. rewrite handleSelectFlowInactive_run.
    cbn [after fst snd flows with_selectedVersionIds with_flows].
    revert H. apply forallb_map_impl. intros f _ Hf.
    unfold markFlow. destruct (isTarget flowId f); [| exact Hf].
    unfold countAgrees, markInactive in *. cbn. now rewrite length_map.
Qed.

Lemma sum_counts (l : list Flow.t) (acc : Z) :
  (forall f, In f l ->
     countOrZero (Flow.versionCount f) = Z.of_nat (length (Flow.versions f))) ->
  fold_left (fun sum flow => (sum + countOrZero (Flow.versionCount flow))%Z) l acc =
  (acc + Z.of_nat (length (flat_map Flow.versions l)))%Z.
Proof.
  revert acc. induction l as [| f l IH]; intros acc H; [cbn; lia |].
  cbn [fold_left flat_map]. rewrite IH by (intros g Hg; apply H; now right).
  rewrite (H f) by now left. rewrite length_app. lia.
Qed.

Lemma filter_length_le {A : Type} (p : A -> bool) (l : list A) :
  (length (filter p l) <= length l)%nat.
Proof. induction l as [| x l IH]; cbn; [lia |]. destruct (p x); cbn; lia. Qed.

(** X19: [totalVersions] is a number exactly when the filtered list is not
    empty and every filtered flow has its versions loaded; it is then, given
    that the loaded flows' version counts agree with their rows, the number
    of version rows of the filtered flows.  With no filtered flow loaded it
    is the dash text. *)
Theorem totalVersions_counts_loaded_rows (c : Component) :
  countsShown c = true ->
  ((exists n, totalVersions c = ShownNumber n) <->
   filteredFlows c <> [] /\ forallb Flow.versionsLoaded (filteredFlows c) = true) /\
  (filteredFlows c <> [] -> forallb Flow.versionsLoaded (filteredFlows c) = true ->
   totalVersions c =
     ShownNumber (Z.of_nat (length (flat_map Flow.versions (filteredFlows c))))) /\
  (filter Flow.versionsLoaded (filteredFlows c) = [] ->
   totalVersions c = ShownText "â€”").
Proof.
  intros Hcounts.
  assert (Hexact : filteredFlows c <> [] ->
                   forallb Flow.versionsLoaded (filteredFlows c) = true ->
                   totalVersions c =
                   ShownNumber (Z.of_nat (length (flat_map Flow.versions (filteredFlows c))))).
  { intros Hne Hall. unfold totalVersions. cbv zeta.
    replace (filter (fun f => Flow.versionsLoaded f) (filteredFlows c))
      with (filteredFlows c) by (symmetry; now apply forallb_filter_id).
    destruct (filteredFlows c) as [| f l] eqn:Hf; [now destruct Hne |].
    cbn [length Nat.eqb]. rewrite Nat.ltb_irrefl. f_equal.
    rewrite sum_counts; [reflexivity |].
    intros g Hg.
    assert (Hin : In g (flows c)).
    { apply (proj1 (filteredFlows_In c g)). rewrite Hf. exact Hg. }
    assert (Hloaded : Flow.versionsLoaded g = true)
      by (apply (proj1 (forallb_forall _ _) Hall); exact Hg).
    unfold countsShown in Hcounts.
    apply (proj1 (forallb_forall _ _) Hcounts) in Hin.
    unfold countAgrees in Hin. rewrite Hloaded in Hin. cbn in Hin.
    destruct (Flow.versionCount g) as [| | n]; try discriminate.
    apply Z.eqb_eq in Hin. exact Hin. }
  repeat apply conj.
  - intros [n Hn]. unfold totalVersions in Hn. cbv zeta in Hn.
    destruct (length (filter (fun f => Flow.versionsLoaded f) (filteredFlows c)) =? 0)%nat
      eqn:Hzero; [discriminate |].
    destruct (length (filter (fun f => Flow.versionsLoaded f) (filteredFlows c))
              <? length (filteredFlows c))%nat eqn:Hless; [discriminate |].
    apply Nat.eqb_neq in Hzero. apply Nat.ltb_ge in Hless.
    pose proof (filter_length_le (fun f => Flow.versionsLoaded f) (filteredFlows c)) as Hle.
    split.
    + intros Hnil. rewrite Hnil in Hzero. now apply Hzero.
    + apply (filter_length_forallb (fun f => Flow.versionsLoaded f)). lia.
  - intros [Hne Hall]. eexists. now apply Hexact.
  - exact Hexact.
  - intros Hnone. unfold totalVersions. cbv zeta.
    change (filter (fun f => Flow.versionsLoaded f) (filteredFlows c))
      with (filter Flow.versionsLoaded (filteredFlows c)).
    rewrite Hnone. reflexivity.
Qed.

End Host.

(** * The properties on the sample data

    The host services are instantiated with [asciiLowerCase] and
    [dateStamp]. *)

(** The toggle handler takes the id of the active version "v2" into the
    selection set, and the next submission sends it. *)
Lemma handleVersionSelect_selects_active_version :
  let c := sampleLoaded dateStamp in
  let c' := after (handleVersionSelect "v2" true c) in
  knownActive c "v2" = true /\
  selectionInactiveOnly c = true /\
  selectedVersionIds c = [] /\
  selectedVersionIds c' = ["v2"] /\
  selectionInactiveOnly c' = false /\
  effects (handleConfirmDelete (Rejected (ErrString "offline"))
                               (Rejected (ErrString "offline")) c') =
    [CallDeleteFlowVersions ["v2"] "SID";
     ShowToast "Error" "Error deleting flow versions: offline" "error" true].
Proof. vm_compute. repeat apply conj; reflexivity. Qed.

Lemma handleVersionSelect_keeps_inactive_only_witness :
  let c' := after (handleVersionSelect "v1" true (sampleLoaded dateStamp)) in
  selectedVersionIds c' = ["v1"] /\
  selectionInactiveOnly c' = true /\
  selectionInactiveOnly (after (handleVersionSelect "v2" true (sampleLoaded dateStamp))) =
    false /\
  exists rest,
    effects (handleConfirmDelete (Rejected (ErrString "offline"))
                                 (Rejected (ErrString "offline")) c') =
    CallDeleteFlowVersions ["v1"] "SID" :: rest.
Proof.
  destruct (handleVersionSelect_keeps_inactive_only (sampleLoaded dateStamp) "v1" true)
    as (Hsel & _ & _ & _ & Hkept).
  destruct (Hkept eq_refl eq_refl) as (Honly & Hsubmit).
  destruct (handleVersionSelect_keeps_inactive_only (sampleLoaded dateStamp) "v2" true)
    as (_ & _ & Hbroken & _).
  split; [exact Hsel |]. split; [exact Honly |]. split; [exact (Hbroken eq_refl) |].
  exact (Hsubmit (Rejected (ErrString "offline")) (Rejected (ErrString "offline"))).
Defined.

(** Checking and unchecking an id that was already selected removes it. *)
Lemma check_uncheck_removes_selected_id :
  let c := after (handleVersionSelect "v1" true (sampleLoaded dateStamp)) in
  selectedVersionIds c = ["v1"] /\
  selectedVersionIds
    (after (handleVersionSelect "v1" false (after (handleVersionSelect "v1" true c)))) = [] /\
  selectedVersionIds
    (after (handleVersionSelect "v1" false (after (handleVersionSelect "v1" true c)))) <>
  selectedVersionIds c.
Proof. vm_compute. repeat apply conj; try reflexivity. discriminate. Qed.

Lemma handleVersionSelect_check_uncheck_witness :
  selectedVersionIds
    (after (handleVersionSelect "v3" false
              (after (handleVersionSelect "v3" true
                        (after (handleVersionSelect "v1" true (sampleLoaded dateStamp))))))) =
  ["v1"].
Proof.
  exact (handleVersionSelect_check_uncheck
           (after (handleVersionSelect "v1" true (sampleLoaded dateStamp))) "v3" eq_refl).
Defined.

(** A failed reload loses the flows that were loaded. *)
Lemma loadFlows_reload_failure_empties_list :
  let out := loadFlows false (Rejected (ErrString "timeout")) sampleListed in
  length (flows sampleListed) = 1%nat /\
  flows (after out) = [] /\
  flows (after out) <> flows sampleListed.
Proof. vm_compute. repeat apply conj; try reflexivity. discriminate. Qed.

Lemma loadFlows_replace_then_append_witness :
  let page1 := Page.make (samplePage "A" 50) true 50%Z in
  let page2 := Page.make (samplePage "B" 20) false 70%Z in
  let c1 := after (loadFlows false (Fulfilled page1) (initial "SID")) in
  let out2 := loadFlows true (Fulfilled page2) c1 in
  effects out2 = [CallGetFlowDefinitions 50%Z] /\
  map Flow.id (flows (after out2)) =
    map FlowSummary.id (samplePage "A" 50) ++ map FlowSummary.id (samplePage "B" 20) /\
  length (flows (after out2)) = 70%nat /\
  hasMoreFlows (after out2) = false.
Proof.
  intros page1 page2 c1 out2.
  destruct (loadFlows_replace_then_append (initial "SID") page1 page2) as (_ & _ & H).
  destruct H as (_ & Hreq & _ & Hids & Hlen & Hmore);
    [vm_compute; reflexivity | reflexivity | reflexivity | vm_compute; reflexivity
     | reflexivity |].
  repeat apply conj; assumption.
Defined.

Lemma filteredFlows_subsequence_witness :
  let c := with_searchTerm "Payroll" sampleListed in
  noResults asciiLowerCase c = true /\
  isLoading c = false /\ filteredFlows asciiLowerCase c = [].
Proof.
  intros c.
  assert (H : noResults asciiLowerCase c = true) by (vm_compute; reflexivity).
  split; [exact H |].
  exact (proj1 (proj2 (proj2 (filteredFlows_subsequence asciiLowerCase c))) H).
Defined.



Lemma handleConfirmDelete_partial_success_witness :
  let c := after (handleSelectFlowInactive "301Onboard" true (sampleLoaded dateStamp)) in
  let page := Page.make [sampleSummary "Onboard" true] false 1%Z in
  let out := handleConfirmDelete (Fulfilled (JsValue samplePartial)) (Fulfilled page) c in
  selectedVersionIds (after out) = [] /\
  In (ShowToast "Warning" "Deleted 3 version(s). Failed to delete 1 version(s)."
        "warning" false) (effects out) /\
  consoleLines (effects out) =
    ["Failed to delete v4: version is referenced by a paused interview"] /\
  filter isListRequest (effects out) = [CallGetFlowDefinitions 0%Z].
Proof.
  intros c page out.
  destruct (handleConfirmDelete_partial_success c samplePartial
              [ {| flowVersionId := "v1"; success := true; errorMessage := JsNull |};
                {| flowVersionId := "v3"; success := true; errorMessage := JsNull |};
                {| flowVersionId := "v4"; success := false;
                   errorMessage := JsValue "version is referenced by a paused interview" |};
                {| flowVersionId := "v5"; success := true; errorMessage := JsNull |} ]
              1%Z (Fulfilled page))
    as (Hsel & Hwarn & Hlines & Hreq & _); [reflexivity | reflexivity | reflexivity |].
  repeat apply conj; assumption.
Defined.

Lemma handleSelectFlowInactive_selection_witness :
  let c := sampleLoaded dateStamp in
  selectedVersionIds (after (handleSelectFlowInactive "301Onboard" true c)) = ["v1"; "v3"] /\
  targetIds "301Onboard" c = ["v1"; "v3"] /\
  ~ inactiveVersionOf c "301Onboard" "v2".
Proof.
  intros c.
  destruct (handleSelectFlowInactive_selection c "301Onboard" "v2")
    as (_ & _ & Hadd & _ & Htargets).
  split; [exact Hadd |]. split; [reflexivity |].
  intros Hv2. apply Htargets in Hv2. vm_compute in Hv2.
  destruct Hv2 as [Hv2 | [Hv2 | []]]; discriminate Hv2.
Defined.

(** Expand, collapse and expand again before the first response: two
    version fetches for the same flow are in flight. *)
Lemma reexpand_starts_second_fetch :
  let w := run dateStamp sampleWorld
               [FlowToggle "301Onboard"; FlowToggle "301Onboard"; FlowToggle "301Onboard"] in
  length (inflightFor "301Onboard" w) = 2%nat /\
  trace w =
    [CallGetFlowVersions "301Onboard" (JsValue "300Onboard");
     CallGetFlowVersions "301Onboard" (JsValue "300Onboard")] /\
  map Flow.isLoadingVersions
      (flows (component (run dateStamp sampleWorld
                             [FlowToggle "301Onboard"; FlowToggle "301Onboard"]))) = [false] /\
  map Flow.isLoadingVersions
      (flows (component (run dateStamp sampleWorld [FlowToggle "301Onboard"]))) = [true].
Proof. vm_compute. repeat apply conj; reflexivity. Qed.

Lemma loaded_flow_not_fetched_again_witness :
  let w := run dateStamp sampleWorld
               [FlowToggle "301Onboard"; VersionsSettled 0 (Fulfilled sampleDetails)] in
  let later := [FlowToggle "301Onboard"; FlowToggle "301Onboard";
                VersionSelect "v1" true; FlowToggle "301Onboard"] in
  versionRequestsFor "301Onboard" w = 1%nat /\
  versionRequestsFor "301Onboard" (run dateStamp w later) = 1%nat /\
  (length (inflightFor "301Onboard" (run dateStamp w later)) <= 0)%nat.
Proof.
  intros w later.
  destruct (loaded_flow_not_fetched_again dateStamp w "301Onboard" later eq_refl)
    as [(_ & Hreq & Hflight) _].
  split; [reflexivity |]. split; [exact Hreq | exact Hflight].
Defined.



(** * The further properties on the sample data *)

Lemma toggleFlowExpansion_loads_versions_witness :
  let four := [sampleDetail "v1" 1%Z false; sampleDetail "v2" 2%Z true;
               sampleDetail "v3" 3%Z false; sampleDetail "v4" 4%Z false] in
  let out := toggleFlowExpansion dateStamp "301Onboard" (Fulfilled four) sampleListed in
  map Flow.versionLabel (flows sampleListed) = ["Click to load"] /\
  effects out = [CallGetFlowVersions "301Onboard" (JsValue "300Onboard")] /\
  exists row,
    nth_error (flows (after out)) 0 = Some row /\
    Flow.versionLabel row = "4 versions" /\
    Flow.versionCount row = JsValue 4%Z /\
    Flow.hasNoInactive row = false /\
    Flow.versionsLoaded row = true.
Proof.
  intros four out.
  pose proof (toggleFlowExpansion_loads_versions dateStamp "301Onboard" sampleListed 0 _ four
                eq_refl eq_refl eq_refl eq_refl)
    as (_ & _ & Heff & _ & _ & row & Hrow & H).
  destruct H as (_ & _ & _ & _ & Hloaded & _ & Hcount & Hlabel & Hnone & _).
  split; [reflexivity |]. split; [exact Heff |].
  exists row. repeat apply conj; assumption.
Defined.


Lemma absent_flow_is_left_alone_witness :
  toggleFlowExpansion_start "301Missing" (sampleLoaded dateStamp) =
    (Normal None, sampleLoaded dateStamp, []) /\
  handleSelectFlowInactive "301Onboard" true sampleListed = (Normal tt, sampleListed, []).
Proof.
  split.
  - exact (proj1 (absent_flow_is_left_alone "301Missing" true (sampleLoaded dateStamp))
             eq_refl).
  - exact (proj2 (absent_flow_is_left_alone "301Onboard" true sampleListed) eq_refl).
Defined.

Lemma selection_survives_expansion_and_loading_witness :
  let w := run dateStamp sampleWorld
               [FlowToggle "301Onboard"; VersionsSettled 0 (Fulfilled sampleDetails);
                VersionSelect "v3" true; VersionSelect "v1" true] in
  let later := [FlowToggle "301Onboard"; FlowToggle "301Onboard"; FlowToggle "301Onboard"] in
  selectedVersionIds (component w) = ["v3"; "v1"] /\
  selectedVersionIds (component (run dateStamp w later)) = ["v3"; "v1"].
Proof.
  intros w later. split; [reflexivity |].
  exact (proj1 (selection_survives_expansion_and_loading dateStamp w later eq_refl)).
Defined.

Lemma headersShown_invariant_witness :
  let c := sampleLoaded dateStamp in
  headersShown c = true /\
  headersShown (after (handleSelectFlowInactive "301Onboard" true c)) = true /\
  map Flow.allInactiveSelected
      (flows (after (handleVersionSelect "v3" true
                       (after (handleVersionSelect "v1" true c))))) = [true].
Proof.
  intros c.
  destruct (headersShown_invariant dateStamp c) as [_ H].
  destruct (H eq_refl) as (_ & _ & _ & Hall).
  split; [reflexivity |]. split; [| reflexivity].
  apply Hall; [reflexivity | intros _; reflexivity].
Defined.

Lemma handleConfirmDelete_full_success_witness :
  let c := after (handleSelectFlowInactive "301Onboard" true (sampleLoaded dateStamp)) in
  let response :=
    {| successCount := JsValue 2%Z; failureCount := JsValue 0%Z; results := JsValue [] |} in
  let out := handleConfirmDelete (Fulfilled (JsValue response))
                                 (Rejected (ErrString "timeout")) c in
  selectedVersionIds c = ["v1"; "v3"] /\
  toastsOf "success" (effects out) =
    [ShowToast "Success" "Successfully deleted 2 flow version(s)." "success" false] /\
  selectedVersionIds (after out) = [] /\
  deleteDisabled (after out) = true /\
  flows (after out) = [].
Proof.
  intros c response out.
  destruct (handleConfirmDelete_full_success c response (Rejected (ErrString "timeout"))
              eq_refl)
    as (Htoast & _ & _ & _ & _ & _ & Hsel & _ & Hflows).
  split; [reflexivity |]. split; [exact Htoast |]. split; [exact Hsel |].
  split; [reflexivity | exact Hflows].
Defined.

Lemma selection_ids_stay_distinct_witness :
  let events := [FlowToggle "301Onboard"; VersionsSettled 0 (Fulfilled sampleDetails);
                 VersionSelect "v1" true; SelectFlowInactive "301Onboard" true;
                 VersionSelect "v1" true] in
  let c := component (run dateStamp sampleWorld events) in
  selectedVersionIds c = ["v1"; "v3"] /\
  NoDup (selectedVersionIds c) /\
  deleteRequests
    (effects (handleConfirmDelete (Rejected (ErrString "offline"))
                                  (Rejected (ErrString "offline")) c)) = [["v1"; "v3"]].
Proof.
  intros events c.
  destruct (selection_ids_stay_distinct dateStamp sampleWorld events
              (Rejected (ErrString "offline")) (Rejected (ErrString "offline"))
              (NoDup_nil string))
    as (Hdistinct & ids & Hreq & _).
  split; [reflexivity |]. split; [exact Hdistinct | reflexivity].
Defined.

Lemma filteredFlows_membership_witness :
  let c := with_filterStatus "Inactive" (with_searchTerm "ONB" sampleListed) in
  filteredFlows asciiLowerCase sampleListed = flows sampleListed /\
  (forall flow, In flow (filteredFlows asciiLowerCase c) -> Flow.isActive flow = false) /\
  filteredFlows asciiLowerCase (with_searchTerm "ONB" sampleListed) = flows sampleListed.
Proof.
  intros c. split; [| split].
  - destruct (flows sampleListed) as [| flow l] eqn:Hflows; [discriminate |].
    rewrite <- Hflows.
    exact (proj1 (proj2 (filteredFlows_membership asciiLowerCase sampleListed flow))
             eq_refl eq_refl eq_refl).
  - intros flow H.
    apply (proj1 (filteredFlows_membership asciiLowerCase c flow)) in H
      as (_ & _ & _ & [H | H]); [discriminate H | exact H].
  - reflexivity.
Defined.

Lemma processTypeOptions_offer_loaded_types_witness :
  processTypeOptions sampleListed =
    [ {| option_label := "All Types"; option_value := "" |};
      {| option_label := "Autolaunched"; option_value := "AutoLaunchedFlow" |} ] /\
  filteredFlows asciiLowerCase
    (with_filterStatus "" (with_searchTerm "" (with_filterType "AutoLaunchedFlow" sampleListed)))
  <> [].
Proof.
  split; [reflexivity |].
  destruct (processTypeOptions_offer_loaded_types asciiLowerCase sampleListed)
    as (_ & _ & _ & H).
  refine (proj2 (H {| option_label := "Autolaunched"; option_value := "AutoLaunchedFlow" |}
                   _ _)).
  - right. left. reflexivity.
  - discriminate.
Defined.

Lemma reload_discards_version_state_witness :
  let page := Page.make [sampleSummary "Onboard" true] false 1%Z in
  let c' := after (loadFlows false (Fulfilled page) (sampleLoaded dateStamp)) in
  versionsLoadedFor "301Onboard" (sampleLoaded dateStamp) = true /\
  versionsLoadedFor "301Onboard" c' = false /\
  (forall flow, In flow (flows c') -> Flow.versions flow = []).
Proof.
  intros page c'.
  destruct (reload_discards_version_state (sampleLoaded dateStamp) (Fulfilled page))
    as (Hfresh & Hloaded & _).
  split; [reflexivity |]. split; [exact (Hloaded "301Onboard") |].
  intros flow Hflow. exact (proj2 (proj2 (Hfresh flow Hflow))).
Defined.

Lemma loadMore_keeps_loaded_versions_witness :
  let page := Page.make (samplePage "B" 2) false 3%Z in
  let c' := after (loadFlows true (Fulfilled page) (sampleLoaded dateStamp)) in
  length (flows c') = 3%nat /\
  versionsLoadedFor "301Onboard" c' = true /\
  effects (toggleFlowExpansion_start "301Onboard" c') = [].
Proof.
  intros page c'.
  destruct (loadMore_keeps_loaded_versions (sampleLoaded dateStamp) (Fulfilled page)
              "301Onboard" eq_refl) as (_ & Hloaded & Heff).
  split; [reflexivity |]. split; [exact Hloaded | exact Heff].
Defined.

Lemma settlements_of_different_rows_commute_witness :
  let c := with_flows (processFlowData [sampleSummary "Onboard" true;
                                         sampleSummary "Renewal" false])
                      (initial "SID") in
  let w := run dateStamp {| component := c; inflight := []; trace := [] |}
               [FlowToggle "301Onboard"; FlowToggle "301Renewal"] in
  map fetch_flowIndex (inflight w) = [0%nat; 1%nat] /\
  component (run dateStamp w [VersionsSettled 0 (Fulfilled sampleDetails);
                              VersionsSettled 0 (Rejected (ErrString "timeout"))]) =
  component (run dateStamp w [VersionsSettled 1 (Rejected (ErrString "timeout"));
                              VersionsSettled 0 (Fulfilled sampleDetails)]).
Proof.
  intros c w. split; [reflexivity |].
  destruct (inflight w) as [| fetch1 [| fetch2 rest]] eqn:Hflight;
    try discriminate Hflight.
  assert (Hidx : fetch_flowIndex fetch1 <> fetch_flowIndex fetch2).
  { assert (H : map fetch_flowIndex (inflight w) = [0%nat; 1%nat]) by reflexivity.
    rewrite Hflight in H. cbn in H. injection H as H1 H2 _. rewrite H1, H2. discriminate. }
  pose proof (proj1 (settlements_of_different_rows_commute dateStamp (component w)
                       fetch2 fetch1 (Rejected (ErrString "timeout"))
                       (Fulfilled sampleDetails) (not_eq_sym Hidx))) as Hcomm.
  cbn [run fold_left step]. rewrite Hflight. cbn [nth_error removeNth component inflight].
  exact Hcomm.
Defined.

Lemma handleSelectFlowInactive_composes_witness :
  let c := after (handleVersionSelect "v1" true (sampleLoaded dateStamp)) in
  let checked := after (handleSelectFlowInactive "301Onboard" true c) in
  selectedVersionIds c = ["v1"] /\
  selectedVersionIds checked = ["v1"; "v3"] /\
  JsSet.has "v1"
    (selectedVersionIds (after (handleSelectFlowInactive "301Onboard" false checked))) = false.
Proof.
  intros c checked.
  destruct (handleSelectFlowInactive_composes c "301Onboard") as (_ & _ & H).
  split; [reflexivity |]. split; [reflexivity |].
  refine (proj2 (H "v1" _)). left. reflexivity.
Defined.

Lemma countsShown_invariant_witness :
  let c := sampleLoaded dateStamp in
  countsShown c = true /\
  countsShown (after (handleSelectFlowInactive "301Onboard" true c)) = true /\
  map Flow.versionCount (flows c) = [JsValue 3%Z].
Proof.
  intros c.
  destruct (countsShown_invariant dateStamp c) as [_ H].
  destruct (H eq_refl) as (_ & _ & _ & _ & Hall).
  split; [reflexivity |]. split; [exact (Hall "301Onboard" true) | reflexivity].
Defined.

Lemma totalVersions_counts_loaded_rows_witness :
  totalVersions asciiLowerCase (sampleLoaded dateStamp) = ShownNumber 3%Z /\
  exists dash, totalVersions asciiLowerCase sampleListed = ShownText dash.
Proof.
  destruct (totalVersions_counts_loaded_rows asciiLowerCase (sampleLoaded dateStamp) eq_refl)
    as (_ & Hexact & _).
  destruct (totalVersions_counts_loaded_rows asciiLowerCase sampleListed eq_refl)
    as (_ & _ & Hdash).
  split.
  - apply Hexact; [discriminate | reflexivity].
  - eexists. apply Hdash. reflexivity.
Defined.
